(** * Chapter 11 (Rotation): the rolling paper, unrolling paper and yo-yo models

    A shallow embedding of the numerical core of [code/chap11.ipynb]:
    the parameter derivation [estimate_k], the three [make_system]
    functions, [moment_of_inertia] and the slope functions, followed by
    the properties the specification states about them.

    Magnitudes of the unit-tagged quantities are real numbers; rounding of
    the binary floating-point arithmetic is not modelled, except in the
    module [Binary64], which replays the two computations of [k] on
    binary64 numbers.  A true division
    whose divisor is zero raises [ZeroDivisionError], as Python's float
    division does, and the square root of a negative number is reported as
    [NotANumber].  The notebook's functions call [unpack], which copies the
    entries of a [Condition] or [System] into the global namespace of the
    session; every bare name they read afterwards is a lookup in that
    namespace, so the namespace is threaded through as explicit state. *)

From Corelib Require PrimFloat.
From Stdlib Require Import Reals Lra Lia List.
From stdpp Require Import gmap strings.
Import ListNotations.

Open Scope string_scope.
Open Scope R_scope.

(** ** Run-time model *)

Inductive exn : Type :=
  | ZeroDivisionError
  | NameError (x : string)
  | NotANumber.

Inductive result (A : Type) : Type :=
  | Ok (a : A)
  | Raise (e : exn).
Arguments Ok {A} a.
Arguments Raise {A} e.

(** The global namespace of the notebook session, restricted to the names
    bound to scalars. *)
Abbreviation globals := (gmap string R).

(** A computation reads and updates the namespace, and returns or raises. *)
Definition M (A : Type) : Type := globals -> result A * globals.

Definition ret {A} (a : A) : M A := fun g => (Ok a, g).

Definition raise {A} (e : exn) : M A := fun g => (Raise e, g).

Definition bind {A B} (c : M A) (f : A -> M B) : M B :=
  fun g =>
    match c g with
    | (Ok a, g') => f a g'
    | (Raise e, g') => (Raise e, g')
    end.

Declare Scope py_scope.
Delimit Scope py_scope with py.
Notation "x <- c ;; f" := (bind c (fun x => f))
  (at level 100, c at next level, right associativity) : py_scope.
Notation "c ;; f" := (bind c (fun _ => f))
  (at level 100, right associativity) : py_scope.
Open Scope py_scope.

(** Reading a bare name that no local assignment binds. *)
Definition var (x : string) : M R :=
  fun g =>
    match g !! x with
    | Some v => (Ok v, g)
    | None => (Raise (NameError x), g)
    end.

(** [a / b] on quantities whose divisor is a run-time value. *)
Definition truediv (a b : R) : M R :=
  if Req_dec_T b 0 then raise ZeroDivisionError else ret (a / b).
Infix "//" := truediv (at level 40, left associativity) : py_scope.

(** [sqrt(x)]: not a number below zero. *)
Definition py_sqrt (x : R) : M R :=
  if Rlt_dec x 0 then raise NotANumber else ret (sqrt x).

(** Objects whose entries [unpack] copies into the namespace: [Condition]
    and [System] are both series indexed by name. *)
Class Series (A : Type) : Type := entries : A -> globals.

#[global] Instance Condition_series : Series (gmap string R) := fun c => c.

(** [unpack(series)]: [globals().update(series)]. *)
Definition unpack {A} `{Series A} (series : A) : M unit :=
  fun g => (Ok tt, entries series ∪ g).

(** The units the notebook loads from [UNITS]; each has magnitude one. *)
Module Units.
Definition radian : R := 1.
Definition m : R := 1.
Definition s : R := 1.
Definition kg : R := 1.
Definition N : R := 1.
End Units.

(** A [Condition] is built from keyword arguments. *)
Definition Condition (kwargs : list (string * R)) : gmap string R :=
  list_to_map kwargs.

(** Modelled from the spec: [linspace], the helper of the course library
    that builds the time grid, is not part of the notebook; it is taken as
    [num] evenly spaced points from [start] to [stop], both included. *)
Definition linspace (start stop : R) (num : nat) : list R :=
  match num with
  | O => []
  | S O => [start]
  | S div =>
      let step := (stop - start) / INR div in
      map (fun i => start + INR i * step) (seq 0 div) ++ [stop]
  end.

(** ** Rolling paper *)

Module Roll.
Import Units.

Record State : Type := mkState { theta : R; y : R; r : R }.

Record System : Type := mkSystem { init : State; k : R; ts : list R }.

#[global] Instance System_series : Series System :=
  fun system => {[ "k" := k system ]}.

(** The value [estimate_k] binds to its local [rads], the divisor of
    its last division. *)
Definition estimate_k_rads (condition : gmap string R) : M R :=
  unpack condition ;;
  Rmax <- var "Rmax" ;;
  Rmin <- var "Rmin" ;;
  let Ravg := (Rmax + Rmin) / 2 in
  let Cavg := 2 * PI * Ravg in
  L <- var "L" ;;
  revs <- L // Cavg ;;
  let rads := 2 * PI * revs in
  ret rads.

Definition estimate_k (condition : gmap string R) : M R :=
  unpack condition ;;
  Rmax <- var "Rmax" ;;
  Rmin <- var "Rmin" ;;
  let Ravg := (Rmax + Rmin) / 2 in
  let Cavg := 2 * PI * Ravg in
  L <- var "L" ;;
  revs <- L // Cavg ;;
  let rads := 2 * PI * revs in
  Rmax <- var "Rmax" ;;
  Rmin <- var "Rmin" ;;
  k <- (Rmax - Rmin) // rads ;;
  ret k.

Definition make_system (condition : gmap string R) : M System :=
  unpack condition ;;
  Rmin <- var "Rmin" ;;
  let init := mkState (0 * radian) (0 * m) Rmin in
  k <- estimate_k condition ;;
  duration <- var "duration" ;;
  let ts := linspace 0 duration 101 in
  ret (mkSystem init k ts).

Definition slope_func (state : State) (t : R) (system : System)
  : M (R * R * R) :=
  let '(mkState theta y r) := state in
  unpack system ;;
  let omega := 10 * radian / s in
  let dydt := r * omega in
  k <- var "k" ;;
  let drdt := k * omega in
  ret (omega, dydt, drdt).

(** The condition of the worked example. *)
Definition condition : gmap string R :=
  Condition [("Rmin", 0.02 * m); ("Rmax", 0.055 * m);
             ("L", 47 * m); ("duration", 130 * s)].

(** [condition] binds the four parameters of the scenario. *)
Definition params (condition : gmap string R) (Rmin Rmax L duration : R)
  : Prop :=
  condition !! "Rmin" = Some Rmin /\ condition !! "Rmax" = Some Rmax /\
  condition !! "L" = Some L /\ condition !! "duration" = Some duration.

(** A valid condition: positive radii in strict order, positive length
    and duration. *)
Definition valid (condition : gmap string R) (duration : R) : Prop :=
  exists Rmin Rmax L,
    params condition Rmin Rmax L duration /\
    0 < Rmin /\ Rmin < Rmax /\ 0 < L /\ 0 < duration.

(** The geometric invariants the specification names. *)
Definition violates_invariants (Rmin Rmax duration : R) : Prop :=
  Rmax < Rmin \/ duration <= 0 \/ Rmax = Rmin.

End Roll.

(** ** Unrolling paper *)

Module Unroll.
Import Units.

Record State : Type := mkState { theta : R; omega : R; y : R }.

Record System : Type := mkSystem {
  init : State; k : R; rho_h : R; Rmin : R; Rmax : R;
  Mcore : R; Mroll : R; ts : list R }.

#[global] Instance System_series : Series System :=
  fun system =>
    list_to_map [("k", k system); ("rho_h", rho_h system);
                 ("Rmin", Rmin system); ("Rmax", Rmax system);
                 ("Mcore", Mcore system); ("Mroll", Mroll system)].

Definition make_system (condition : gmap string R) : M System :=
  unpack condition ;;
  L <- var "L" ;;
  let init := mkState (0 * radian) (0 * radian / s) L in
  Rmax <- var "Rmax" ;;
  Rmin <- var "Rmin" ;;
  let area := PI * (Rmax ^ 2 - Rmin ^ 2) in
  Mroll <- var "Mroll" ;;
  rho_h <- Mroll // area ;;
  Rmax <- var "Rmax" ;;
  Rmin <- var "Rmin" ;;
  L <- var "L" ;;
  k <- (Rmax ^ 2 - Rmin ^ 2) / 2 // L ;;
  let k := k / radian in
  duration <- var "duration" ;;
  let ts := linspace 0 duration 101 in
  Rmin <- var "Rmin" ;;
  Rmax <- var "Rmax" ;;
  Mcore <- var "Mcore" ;;
  Mroll <- var "Mroll" ;;
  ret (mkSystem init k rho_h Rmin Rmax Mcore Mroll ts).

Definition moment_of_inertia (r : R) (system : System) : M R :=
  unpack system ;;
  Mcore <- var "Mcore" ;;
  Rmin <- var "Rmin" ;;
  let Icore := Mcore * Rmin ^ 2 in
  rho_h <- var "rho_h" ;;
  Rmin <- var "Rmin" ;;
  let Iroll := PI * rho_h / 2 * (r ^ 4 - Rmin ^ 4) in
  ret (Icore + Iroll).

(** In the notebook [r] is a numpy scalar: below a zero radicand it is
    not a number, at [I = 0] the quotient is infinite or not a number, and
    the function goes on with these.  The values of this embedding are
    real numbers, so it stops there instead; the properties of this
    function keep to [0 <= 2 k y + Rmin^2] and [I <> 0]. *)
Definition slope_func (state : State) (t : R) (system : System)
  : M (R * R * R) :=
  let '(mkState theta omega y) := state in
  unpack system ;;
  k <- var "k" ;;
  Rmin <- var "Rmin" ;;
  r <- py_sqrt (2 * k * y + Rmin ^ 2) ;;
  I <- moment_of_inertia r system ;;
  tension <- var "tension" ;;
  let tau := r * tension in
  alpha <- tau // I ;;
  let dydt := - r * omega in
  ret (omega, alpha, dydt).

(** The condition of the worked example. *)
Definition condition : gmap string R :=
  Condition [("Rmin", 0.02 * m); ("Rmax", 0.055 * m);
             ("Mcore", 15e-3 * kg); ("Mroll", 215e-3 * kg);
             ("L", 47 * m); ("tension", 2e-4 * N);
             ("duration", 180 * s)].

(** A state and a system with round numbers, and the namespace a
    session holds once a condition with unit tension was unpacked. *)
Definition unit_state : State := mkState 0 3 4.
Definition unit_system : System :=
  mkSystem (mkState 0 0 4) 1 2 1 3 1 1 (linspace 0 1 101).
Definition unit_session : gmap string R := {[ "tension" := 1 ]}.

Definition params (condition : gmap string R)
  (Rmin Rmax Mcore Mroll L duration : R) : Prop :=
  condition !! "Rmin" = Some Rmin /\ condition !! "Rmax" = Some Rmax /\
  condition !! "Mcore" = Some Mcore /\ condition !! "Mroll" = Some Mroll /\
  condition !! "L" = Some L /\ condition !! "duration" = Some duration.

Definition valid (condition : gmap string R) (duration : R) : Prop :=
  exists Rmin Rmax Mcore Mroll L,
    params condition Rmin Rmax Mcore Mroll L duration /\
    0 < Rmin /\ Rmin < Rmax /\ 0 < L /\ 0 < duration.

End Unroll.

(** ** Yo-yo *)

Module Yoyo.
Import Units.

Record State : Type := mkState { theta : R; omega : R; y : R; v : R }.

Record System : Type := mkSystem {
  init : State; k : R; Rmin : R; Rmax : R;
  mass : R; I : R; g : R; ts : list R }.

#[global] Instance System_series : Series System :=
  fun system =>
    list_to_map [("k", k system); ("Rmin", Rmin system);
                 ("Rmax", Rmax system); ("mass", mass system);
                 ("I", I system); ("g", g system)].

Definition make_system (condition : gmap string R) : M System :=
  unpack condition ;;
  L <- var "L" ;;
  let init := mkState (0 * radian) (0 * radian / s) L (0 * m / s) in
  mass <- var "mass" ;;
  Rout <- var "Rout" ;;
  let I := mass * Rout ^ 2 / 2 in
  Rmax <- var "Rmax" ;;
  Rmin <- var "Rmin" ;;
  L <- var "L" ;;
  k <- (Rmax ^ 2 - Rmin ^ 2) / 2 // L ;;
  let k := k / radian in
  duration <- var "duration" ;;
  let ts := linspace 0 duration 101 in
  Rmin <- var "Rmin" ;;
  Rmax <- var "Rmax" ;;
  mass <- var "mass" ;;
  g <- var "g" ;;
  ret (mkSystem init k Rmin Rmax mass I g ts).

(** Modelled from the spec: the notebook leaves the yo-yo slope function
    as an exercise (its cell reads [# Solution goes here]).  The body
    follows the formulas and the hint of the cell above it and the
    derivative function of the specification: the all-zero sequence once
    [y] is below zero, otherwise [r = sqrt(2 k y + Rmin^2)],
    [Istar = I + mass r^2], [T = mass g I / Istar],
    [a = - mass g r^2 / Istar], [alpha = mass g r / Istar], and the
    derivatives [omega, alpha, v, a] of [theta, omega, y, v]. *)
Definition slope_func (state : State) (t : R) (system : System)
  : M (R * R * R * R) :=
  let '(mkState theta omega y v) := state in
  unpack system ;;
  if Rlt_dec y 0 then ret (0, 0, 0, 0) else
  k <- var "k" ;;
  Rmin <- var "Rmin" ;;
  r <- py_sqrt (2 * k * y + Rmin ^ 2) ;;
  I <- var "I" ;;
  mass <- var "mass" ;;
  let Istar := I + mass * r ^ 2 in
  g <- var "g" ;;
  T <- mass * g * I // Istar ;;
  a <- - mass * g * r ^ 2 // Istar ;;
  alpha <- mass * g * r // Istar ;;
  ret (omega, alpha, v, a).

(** Modelled from the spec: the integrator is an external collaborator
    of the notebook ([run_odeint]); a fixed-step solver that evaluates
    the slope function at each sample and advances every component by
    the step times its derivative stands for it.  [steps] are the
    distances between consecutive points of the time grid, and the
    result is the list of recorded samples. *)
Definition advance (h : R) (state : State) (d : R * R * R * R) : State :=
  let '(dtheta, domega, dy, dv) := d in
  mkState (theta state + h * dtheta) (omega state + h * domega)
          (y state + h * dy) (v state + h * dv).

Fixpoint integrate (system : System) (state : State) (t : R)
    (steps : list R) : M (list State) :=
  match steps with
  | [] => ret [state]
  | h :: steps' =>
      d <- slope_func state t system ;;
      samples <- integrate system (advance h state d) (t + h) steps' ;;
      ret (state :: samples)
  end.

(** The condition of the exercise. *)
Definition condition : gmap string R :=
  Condition [("Rmin", 8e-3 * m); ("Rmax", 16e-3 * m);
             ("Rout", 35e-3 * m); ("mass", 50e-3 * kg);
             ("L", 1 * m); ("g", 9.8 * m / s ^ 2);
             ("duration", 1 * s)].

(** A state past the end of the string, and a system with round
    numbers. *)
Definition spent_state : State := mkState 5 2 (-1) (-3).
Definition unit_system : System :=
  mkSystem (mkState 0 0 1 0) 1 1 2 1 1 10 (linspace 0 1 101).

Definition params (condition : gmap string R)
  (Rmin Rmax Rout mass L g duration : R) : Prop :=
  condition !! "Rmin" = Some Rmin /\ condition !! "Rmax" = Some Rmax /\
  condition !! "Rout" = Some Rout /\ condition !! "mass" = Some mass /\
  condition !! "L" = Some L /\ condition !! "g" = Some g /\
  condition !! "duration" = Some duration.

Definition valid (condition : gmap string R) (duration : R) : Prop :=
  exists Rmin Rmax Rout mass L g,
    params condition Rmin Rmax Rout mass L g duration /\
    0 < Rmin /\ Rmin < Rmax /\ 0 < L /\ 0 < duration.

End Yoyo.

(** The closed form of [k] in the words of the specification:
    [(Rmax^2 - Rmin^2) / (2 L)]. *)
Definition closed_form_k (Rmin Rmax L : R) : R :=
  (Rmax ^ 2 - Rmin ^ 2) / (2 * L).

(** ** The two computations of [k] on binary64 numbers *)

Module Binary64.
Import PrimFloat.

(** [pi], the binary64 number 3.141592653589793. *)
Definition pi : PrimFloat.float := 0x1.921fb54442d18p+1%float.

(** [a / b] on Python floats: an error on a zero divisor. *)
Definition truediv (a b : PrimFloat.float) : option PrimFloat.float :=
  if (b =? 0)%float then None else Some (a / b)%float.

(** The arithmetic of [estimate_k], operation by operation. *)
Definition estimate_k (Rmin Rmax L : PrimFloat.float)
  : option PrimFloat.float :=
  let Ravg := ((Rmax + Rmin) / 2)%float in
  let Cavg := (2 * pi * Ravg)%float in
  match truediv L Cavg with
  | None => None
  | Some revs =>
      let rads := (2 * pi * revs)%float in
      truediv (Rmax - Rmin)%float rads
  end.

(** The arithmetic of [k = (Rmax**2 - Rmin**2) / 2 / L / radian] in the
    unrolling and yo-yo [make_system]; a square is the rounded product. *)
Definition make_system_k (Rmin Rmax L : PrimFloat.float)
  : option PrimFloat.float :=
  match truediv ((Rmax * Rmax - Rmin * Rmin) / 2)%float L with
  | None => None
  | Some k => Some (k / 1)%float
  end.

(** The radii and the length of the yo-yo condition: 8e-3, 16e-3 and 1. *)
Definition yoyo_Rmin : PrimFloat.float := 0x1.0624dd2f1a9fcp-7%float.
Definition yoyo_Rmax : PrimFloat.float := 0x1.0624dd2f1a9fcp-6%float.
Definition yoyo_L : PrimFloat.float := 1%float.

(** Two neighbouring binary64 numbers: 9.599999999999999e-05 and
    9.6e-05. *)
Definition below_96e_6 : PrimFloat.float := 0x1.92a737110e453p-14%float.
Definition nearest_96e_6 : PrimFloat.float := 0x1.92a737110e454p-14%float.

End Binary64.

(** ** The time grid *)

(** [ts] has 101 evenly spaced, non-decreasing points from 0 to
    [duration]. *)
Definition time_grid (duration : R) (ts : list R) : Prop :=
  length ts = 101%nat /\
  ts !! 0%nat = Some 0 /\
  ts !! 100%nat = Some duration /\
  forall i : nat, (i < 100)%nat ->
    exists a b, ts !! i = Some a /\ ts !! S i = Some b /\
                b - a = duration / 100 /\ a <= b.

(** ** Stepping through a computation *)

Lemma bind_ok {A B} (c : M A) (f : A -> M B) g a g' :
  c g = (Ok a, g') -> bind c f g = f a g'.
Proof. intros E. unfold bind. now rewrite E. Qed.

Lemma bind_raise {A B} (c : M A) (f : A -> M B) g e g' :
  c g = (Raise e, g') -> bind c f g = (Raise e, g').
Proof. intros E. unfold bind. now rewrite E. Qed.

Lemma unpack_run {A} `{Series A} (series : A) g :
  unpack series g = (Ok tt, entries series ∪ g).
Proof. reflexivity. Qed.

Lemma var_ok x v (g : globals) : g !! x = Some v -> var x g = (Ok v, g).
Proof. intros E. unfold var. now rewrite E. Qed.

Lemma var_unbound x (g : globals) :
  g !! x = None -> var x g = (Raise (NameError x), g).
Proof. intros E. unfold var. now rewrite E. Qed.

Lemma truediv_ok a b g : b <> 0 -> truediv a b g = (Ok (a / b), g).
Proof. intros Hb. unfold truediv. now destruct (Req_dec_T b 0). Qed.

Lemma truediv_zero a g : truediv a 0 g = (Raise ZeroDivisionError, g).
Proof. unfold truediv. now destruct (Req_dec_T 0 0). Qed.

Lemma py_sqrt_ok x g : 0 <= x -> py_sqrt x g = (Ok (sqrt x), g).
Proof. intros Hx. unfold py_sqrt. destruct (Rlt_dec x 0); [lra | reflexivity]. Qed.

Lemma lookup_unpacked (c g : globals) x v :
  c !! x = Some v -> (c ∪ g) !! x = Some v.
Proof. apply lookup_union_Some_l. Qed.

Lemma unpack_twice (c g : globals) : c ∪ (c ∪ g) = c ∪ g.
Proof. now rewrite (assoc_L (∪)), (idemp_L (∪)). Qed.

(** Reading a name right after a series that binds it was unpacked. *)
Ltac read_var :=
  apply var_ok;
  first [ eassumption
        | apply lookup_unpacked; eassumption
        | apply lookup_unpacked; reflexivity
        | rewrite lookup_union_r by reflexivity; eassumption
        | reflexivity ].

(** One statement of a function body whose outcome is known. *)
Ltac step :=
  first [ erewrite bind_ok by apply unpack_run
        | erewrite bind_ok by read_var
        | erewrite bind_ok by (apply truediv_ok; assumption)
        | erewrite bind_ok by (apply py_sqrt_ok; assumption) ];
  cbv beta zeta.

(** ** Properties of the rolling-paper model *)

Section RollCondition.

Variables (g c : globals) (Rmin Rmax L : R).
Hypothesis c_Rmin : c !! "Rmin" = Some Rmin.
Hypothesis c_Rmax : c !! "Rmax" = Some Rmax.
Hypothesis c_L : c !! "L" = Some L.

(** [rads] is [L / Ravg] whenever both divisions of its computation are
    defined. *)
Lemma estimate_k_rads_ok :
  Rmax + Rmin <> 0 ->
  Roll.estimate_k_rads c g =
    (Ok (2 * PI * (L / (2 * PI * ((Rmax + Rmin) / 2)))), c ∪ g).
Proof using c_Rmin c_Rmax c_L.
  intros Hsum.
  assert (HC : 2 * PI * ((Rmax + Rmin) / 2) <> 0).
  { pose proof PI_RGT_0. nra. }
  unfold Roll.estimate_k_rads.
  do 5 step. reflexivity.
Qed.

Lemma estimate_k_ok :
  Rmax + Rmin <> 0 -> L <> 0 ->
  Roll.estimate_k c g =
    (Ok ((Rmax - Rmin) / (2 * PI * (L / (2 * PI * ((Rmax + Rmin) / 2))))),
     c ∪ g).
Proof using c_Rmin c_Rmax c_L.
  intros Hsum HL.
  assert (HC : 2 * PI * ((Rmax + Rmin) / 2) <> 0).
  { pose proof PI_RGT_0. nra. }
  assert (Hrads : 2 * PI * (L / (2 * PI * ((Rmax + Rmin) / 2))) <> 0).
  { pose proof PI_RGT_0. intros E.
    apply Rmult_integral in E as [E | E]; [lra |].
    apply Rmult_integral in E as [E | E]; [lra |].
    now apply Rinv_neq_0_compat in HC. }
  unfold Roll.estimate_k.
  do 8 step. reflexivity.
Qed.

End RollCondition.

(** [estimate_k] is the computation of [rads] followed by its last
    division, on every condition and namespace. *)
Lemma estimate_k_divides_by_rads (c g : globals) :
  Roll.estimate_k c g =
    (rads <- Roll.estimate_k_rads c ;;
     Rmax <- var "Rmax" ;;
     Rmin <- var "Rmin" ;;
     k <- (Rmax - Rmin) // rads ;;
     ret k) g.
Proof.
  unfold Roll.estimate_k, Roll.estimate_k_rads, bind, unpack, var.
  destruct ((entries c ∪ g) !! "Rmax") as [Rmax |]; [| reflexivity].
  destruct ((entries c ∪ g) !! "Rmin") as [Rmin |]; [| reflexivity].
  destruct ((entries c ∪ g) !! "L") as [L |]; [| reflexivity].
  unfold truediv, raise, ret.
  destruct (Req_dec_T (2 * PI * ((Rmax + Rmin) / 2)) 0); reflexivity.
Qed.

Lemma truediv_raise a b g :
  b = 0 -> truediv a b g = (Raise ZeroDivisionError, g).
Proof. intros ->. apply truediv_zero. Qed.

Lemma roll_make_system_ok (g c : globals) Rmin Rmax L duration :
  Roll.params c Rmin Rmax L duration ->
  Rmax + Rmin <> 0 -> L <> 0 ->
  Roll.make_system c g =
    (Ok (Roll.mkSystem
           (Roll.mkState (0 * Units.radian) (0 * Units.m) Rmin)
           ((Rmax - Rmin) / (2 * PI * (L / (2 * PI * ((Rmax + Rmin) / 2)))))
           (linspace 0 duration 101)),
     c ∪ g).
Proof.
  intros (c_Rmin & c_Rmax & c_L & c_duration) Hsum HL.
  unfold Roll.make_system.
  do 2 step.
  erewrite bind_ok by (apply estimate_k_ok; eauto using lookup_unpacked).
  rewrite unpack_twice.
  step. reflexivity.
Qed.

(** C1: for a condition with [0 < Rmin < Rmax] and [0 < L], [estimate_k]
    returns [(Rmax - Rmin) / total_rotation], where
    [Ravg = (Rmax + Rmin) / 2], [revs = L / (2 pi Ravg)] and
    [total_rotation = 2 pi revs] is the value of the local [rads]. *)
Theorem estimate_k_spec (g c : globals) (Rmin Rmax L : R) :
  c !! "Rmin" = Some Rmin -> c !! "Rmax" = Some Rmax -> c !! "L" = Some L ->
  0 < Rmin -> Rmin < Rmax -> 0 < L ->
  let Ravg := (Rmax + Rmin) / 2 in
  let revs := L / (2 * PI * Ravg) in
  let total_rotation := 2 * PI * revs in
  Roll.estimate_k_rads c g = (Ok total_rotation, c ∪ g) /\
  Roll.estimate_k c g = (Ok ((Rmax - Rmin) / total_rotation), c ∪ g).
Proof.
  intros c_Rmin c_Rmax c_L HRmin HRmax HL. cbv zeta. split.
  - apply estimate_k_rads_ok; auto; lra.
  - apply estimate_k_ok; auto; lra.
Qed.

Lemma estimate_k_spec_witness :
  Roll.estimate_k Roll.condition ∅ =
    (Ok ((0.055 * Units.m - 0.02 * Units.m) /
         (2 * PI * (47 * Units.m /
                    (2 * PI * ((0.055 * Units.m + 0.02 * Units.m) / 2))))),
     Roll.condition ∪ ∅).
Proof.
  apply (estimate_k_spec ∅ Roll.condition (0.02 * Units.m) (0.055 * Units.m)
           (47 * Units.m));
    try reflexivity; unfold Units.m; lra.
Defined.

(** [estimate_k] raises exactly when one of its two divisors is zero:
    [Cavg] when the radii cancel, [rads] when the length is zero. *)
Lemma estimate_k_raises (g c : globals) Rmin Rmax L :
  c !! "Rmin" = Some Rmin -> c !! "Rmax" = Some Rmax -> c !! "L" = Some L ->
  Rmax + Rmin = 0 \/ L = 0 ->
  Roll.estimate_k c g = (Raise ZeroDivisionError, c ∪ g).
Proof.
  intros c_Rmin c_Rmax c_L Hzero.
  unfold Roll.estimate_k. do 4 step.
  destruct (Req_dec_T (Rmax + Rmin) 0) as [Hsum | Hsum].
  - erewrite bind_raise; [reflexivity |].
    apply truediv_raise. rewrite Hsum. lra.
  - destruct Hzero as [Hsum' | HL]; [contradiction |].
    assert (HC : 2 * PI * ((Rmax + Rmin) / 2) <> 0).
    { pose proof PI_RGT_0. nra. }
    do 3 step.
    erewrite bind_raise; [reflexivity |].
    apply truediv_raise. rewrite HL. unfold Rdiv. lra.
Qed.

(** C2 as stated fails: with equal radii the divisor is not zero and the
    division is defined. *)
Lemma estimate_k_equal_radii_counterexample :
  let c := Condition [("Rmin", 1); ("Rmax", 1); ("L", 1)] in
  c !! "Rmax" = c !! "Rmin" /\
  (exists rads, Roll.estimate_k_rads c ∅ = (Ok rads, c ∪ ∅) /\ rads = 1) /\
  (exists k, Roll.estimate_k c ∅ = (Ok k, c ∪ ∅) /\ k = 0) /\
  fst (Roll.estimate_k c ∅) <> Raise ZeroDivisionError.
Proof.
  cbv zeta. split; [reflexivity |]. split; [| split].
  - eexists. split.
    + apply (estimate_k_rads_ok ∅ _ 1 1 1); try reflexivity. lra.
    + pose proof PI_RGT_0. field. lra.
  - eexists. split.
    + apply (estimate_k_ok ∅ _ 1 1 1); try reflexivity; lra.
    + unfold Rdiv. rewrite Rminus_diag. lra.
  - rewrite (estimate_k_ok ∅ _ 1 1 1); try reflexivity; try lra.
    discriminate.
Qed.

(** C2, amended: when [Rmax = Rmin] (positive) and [0 < L], the divisor
    [rads] of [estimate_k] is [L / Rmin], which is positive, so no division
    by zero occurs and [estimate_k] returns [k = 0]. *)
Theorem estimate_k_equal_radii (g c : globals) (Rmin L : R) :
  c !! "Rmin" = Some Rmin -> c !! "Rmax" = Some Rmin -> c !! "L" = Some L ->
  0 < Rmin -> 0 < L ->
  exists rads k,
    Roll.estimate_k_rads c g = (Ok rads, c ∪ g) /\
    rads = L / Rmin /\ 0 < rads /\
    Roll.estimate_k c g = (Ok k, c ∪ g) /\ k = 0.
Proof.
  intros c_Rmin c_Rmax c_L HRmin HL.
  pose proof PI_RGT_0 as Hpi.
  do 2 eexists. split; [| split; [| split; [| split]]].
  - apply (estimate_k_rads_ok g c Rmin Rmin L); auto. lra.
  - field. lra.
  - replace (2 * PI * (L / (2 * PI * ((Rmin + Rmin) / 2)))) with (L / Rmin)
      by (field; lra).
    now apply Rdiv_lt_0_compat.
  - apply (estimate_k_ok g c Rmin Rmin L); auto; lra.
  - unfold Rdiv. rewrite Rminus_diag. lra.
Qed.

Lemma estimate_k_equal_radii_witness :
  exists rads k,
    Roll.estimate_k_rads (Condition [("Rmin", 1); ("Rmax", 1); ("L", 2)]) ∅ =
      (Ok rads, Condition [("Rmin", 1); ("Rmax", 1); ("L", 2)] ∪ ∅) /\
    rads = 2 / 1 /\ 0 < rads /\
    Roll.estimate_k (Condition [("Rmin", 1); ("Rmax", 1); ("L", 2)]) ∅ =
      (Ok k, Condition [("Rmin", 1); ("Rmax", 1); ("L", 2)] ∪ ∅) /\ k = 0.
Proof.
  apply (estimate_k_equal_radii ∅ _ 1 2); try reflexivity; lra.
Defined.

(** C3 as stated fails: conditions that break each of the three invariants
    are assembled into a system without any error. *)
Lemma roll_make_system_unchecked_counterexample :
  (Roll.violates_invariants 2 1 1 /\
   exists system, fst (Roll.make_system
     (Condition [("Rmin", 2); ("Rmax", 1); ("L", 1); ("duration", 1)]) ∅)
     = Ok system) /\
  (Roll.violates_invariants 1 2 (-1) /\
   exists system, fst (Roll.make_system
     (Condition [("Rmin", 1); ("Rmax", 2); ("L", 1); ("duration", -1)]) ∅)
     = Ok system) /\
  (Roll.violates_invariants 1 1 1 /\
   exists system, fst (Roll.make_system
     (Condition [("Rmin", 1); ("Rmax", 1); ("L", 1); ("duration", 1)]) ∅)
     = Ok system /\ Roll.k system = 0).
Proof.
  unfold Roll.violates_invariants. split; [| split]; (split; [lra |]).
  - eexists. rewrite (roll_make_system_ok ∅ _ 2 1 1 1);
      [reflexivity | repeat split; reflexivity | lra | lra].
  - eexists. rewrite (roll_make_system_ok ∅ _ 1 2 1 (-1));
      [reflexivity | repeat split; reflexivity | lra | lra].
  - eexists. rewrite (roll_make_system_ok ∅ _ 1 1 1 1);
      [| repeat split; reflexivity | lra | lra].
    split; [reflexivity |]. cbn. unfold Rdiv. rewrite Rminus_diag. lra.
Qed.

(** C3, amended: the rolling-paper [make_system] checks none of the
    geometric invariants.  For a condition binding [Rmin], [Rmax], [L] and
    [duration] it returns a system whenever [Rmax + Rmin <> 0] and
    [L <> 0], whatever the order of the radii and the sign of [duration],
    and raises [ZeroDivisionError], out of [estimate_k], when
    [Rmax + Rmin = 0] or [L = 0]. *)
Theorem roll_make_system_unchecked (g c : globals) (Rmin Rmax L duration : R) :
  Roll.params c Rmin Rmax L duration ->
  (Rmax + Rmin <> 0 /\ L <> 0 ->
   exists system,
     Roll.make_system c g = (Ok system, c ∪ g) /\
     Roll.init system = Roll.mkState 0 0 Rmin /\
     Roll.k system =
       (Rmax - Rmin) / (2 * PI * (L / (2 * PI * ((Rmax + Rmin) / 2)))) /\
     Roll.ts system = linspace 0 duration 101) /\
  (Rmax + Rmin = 0 \/ L = 0 ->
   Roll.make_system c g = (Raise ZeroDivisionError, c ∪ g)).
Proof.
  intros Hc. split.
  - intros [Hsum HL]. eexists. split.
    + now apply roll_make_system_ok with (1 := Hc).
    + cbn. repeat split. unfold Units.radian, Units.m. f_equal; lra.
  - intros Hzero. destruct Hc as (c_Rmin & c_Rmax & c_L & c_duration).
    unfold Roll.make_system. do 2 step.
    erewrite bind_raise;
      [| apply (estimate_k_raises _ _ Rmin Rmax L); assumption].
    now rewrite unpack_twice.
Qed.

Lemma roll_make_system_unchecked_witness :
  (1 + 2 <> 0 /\ 1 <> 0 ->
   exists system,
     Roll.make_system
       (Condition [("Rmin", 2); ("Rmax", 1); ("L", 1); ("duration", -1)]) ∅ =
       (Ok system,
        Condition [("Rmin", 2); ("Rmax", 1); ("L", 1); ("duration", -1)] ∪ ∅) /\
     Roll.init system = Roll.mkState 0 0 2 /\
     Roll.k system = (1 - 2) / (2 * PI * (1 / (2 * PI * ((1 + 2) / 2)))) /\
     Roll.ts system = linspace 0 (-1) 101) /\
  (1 + 2 = 0 \/ 1 = 0 ->
   Roll.make_system
     (Condition [("Rmin", 2); ("Rmax", 1); ("L", 1); ("duration", -1)]) ∅ =
     (Raise ZeroDivisionError,
      Condition [("Rmin", 2); ("Rmax", 1); ("L", 1); ("duration", -1)] ∪ ∅)).
Proof.
  apply (roll_make_system_unchecked ∅ _ 2 1 1 (-1)).
  repeat split; reflexivity.
Defined.

(** C5: for every state, time and system the rolling-paper slope function
    returns [(omega, r * omega, k * omega)] with [omega = 10]; the
    derivative of [theta] is 10 whatever the state and the time. *)
Theorem roll_slope_func_spec (g : globals) (state : Roll.State) (t : R)
    (system : Roll.System) :
  Roll.slope_func state t system g =
    (Ok (10, Roll.r state * 10, Roll.k system * 10), entries system ∪ g).
Proof.
  destruct state as [theta y r]. unfold Roll.slope_func.
  cbv beta iota. do 2 step. unfold ret, Units.radian, Units.s. cbn [Roll.r].
  do 3 f_equal; [f_equal |]; lra.
Qed.

(** ** Properties of the unrolling-paper model *)

Lemma unroll_make_system_ok (g c : globals) Rmin Rmax Mcore Mroll L duration :
  Unroll.params c Rmin Rmax Mcore Mroll L duration ->
  Rmax ^ 2 - Rmin ^ 2 <> 0 -> L <> 0 ->
  Unroll.make_system c g =
    (Ok (Unroll.mkSystem
           (Unroll.mkState (0 * Units.radian) (0 * Units.radian / Units.s) L)
           ((Rmax ^ 2 - Rmin ^ 2) / 2 / L / Units.radian)
           (Mroll / (PI * (Rmax ^ 2 - Rmin ^ 2)))
           Rmin Rmax Mcore Mroll (linspace 0 duration 101)),
     c ∪ g).
Proof.
  intros (c_Rmin & c_Rmax & c_Mcore & c_Mroll & c_L & c_duration) Hsq HL.
  assert (Harea : PI * (Rmax ^ 2 - Rmin ^ 2) <> 0).
  { pose proof PI_RGT_0. apply Rmult_integral_contrapositive_currified; lra. }
  unfold Unroll.make_system.
  do 15 step. reflexivity.
Qed.

Lemma moment_of_inertia_ok (g : globals) (r : R) (system : Unroll.System) :
  Unroll.moment_of_inertia r system g =
    (Ok (Unroll.Mcore system * Unroll.Rmin system ^ 2 +
         PI * Unroll.rho_h system / 2 * (r ^ 4 - Unroll.Rmin system ^ 4)),
     entries system ∪ g).
Proof.
  unfold Unroll.moment_of_inertia. do 5 step. reflexivity.
Qed.

Lemma squares_apart (a b : R) : 0 < a -> a < b -> a ^ 2 < b ^ 2.
Proof. intros Ha Hab. nra. Qed.

Lemma fourth_powers_apart (a b : R) : 0 < a -> a < b -> a ^ 4 < b ^ 4.
Proof.
  intros Ha Hab.
  pose proof (squares_apart a b Ha Hab) as Hsq.
  assert (Ha2 : 0 < a ^ 2) by nra.
  replace (a ^ 4) with ((a ^ 2) ^ 2) by ring.
  replace (b ^ 4) with ((b ^ 2) ^ 2) by ring.
  now apply squares_apart.
Qed.

(** C7: for an unrolling condition with [Rmin < Rmax] and [0 < L], its
    radii being positive as those of every condition are, [make_system]
    returns a system whose constants are
    [k = (Rmax^2 - Rmin^2) / (2 L)] and
    [rho_h = Mroll / (pi (Rmax^2 - Rmin^2))]. *)
Theorem unroll_make_system_constants (g c : globals)
    (Rmin Rmax Mcore Mroll L duration : R) :
  Unroll.params c Rmin Rmax Mcore Mroll L duration ->
  0 < Rmin -> Rmin < Rmax -> 0 < L ->
  exists system,
    Unroll.make_system c g = (Ok system, c ∪ g) /\
    Unroll.k system = (Rmax ^ 2 - Rmin ^ 2) / (2 * L) /\
    Unroll.rho_h system = Mroll / (PI * (Rmax ^ 2 - Rmin ^ 2)).
Proof.
  intros Hc HRmin HRmax HL.
  pose proof (squares_apart Rmin Rmax HRmin HRmax) as Hsq.
  eexists. split; [| split].
  - apply unroll_make_system_ok with (1 := Hc); lra.
  - cbn. unfold Units.radian. field. lra.
  - reflexivity.
Qed.

Lemma unroll_make_system_constants_witness :
  exists system,
    Unroll.make_system Unroll.condition ∅ =
      (Ok system, Unroll.condition ∪ ∅) /\
    Unroll.k system =
      ((0.055 * Units.m) ^ 2 - (0.02 * Units.m) ^ 2) / (2 * (47 * Units.m)) /\
    Unroll.rho_h system =
      215e-3 * Units.kg /
        (PI * ((0.055 * Units.m) ^ 2 - (0.02 * Units.m) ^ 2)).
Proof.
  apply (unroll_make_system_constants ∅ Unroll.condition
           (0.02 * Units.m) (0.055 * Units.m) (15e-3 * Units.kg)
           (215e-3 * Units.kg) (47 * Units.m) (180 * Units.s));
    [repeat split; reflexivity | unfold Units.m; lra ..].
Defined.

Lemma unroll_slope_func_ok (g : globals) (state : Unroll.State) (t : R)
    (system : Unroll.System) (tension r Ir : R) :
  g !! "tension" = Some tension ->
  0 <= 2 * Unroll.k system * Unroll.y state + Unroll.Rmin system ^ 2 ->
  r = sqrt (2 * Unroll.k system * Unroll.y state
            + Unroll.Rmin system ^ 2) ->
  Ir = Unroll.Mcore system * Unroll.Rmin system ^ 2 +
       PI * Unroll.rho_h system / 2 * (r ^ 4 - Unroll.Rmin system ^ 4) ->
  Ir <> 0 ->
  Unroll.slope_func state t system g =
    (Ok (Unroll.omega state, r * tension / Ir, - r * Unroll.omega state),
     entries system ∪ g).
Proof.
  intros Htension Harg -> -> HIr.
  destruct state as [theta omega y]. cbn [Unroll.y Unroll.omega] in *.
  unfold Unroll.slope_func. cbv beta iota.
  do 4 step.
  erewrite bind_ok by apply moment_of_inertia_ok.
  rewrite unpack_twice. do 2 step. reflexivity.
Qed.

(** C6: on a state with [0 <= 2 k y + Rmin^2] the unrolling slope function
    computes [r = sqrt (2 k y + Rmin^2)],
    [I = Mcore Rmin^2 + (pi rho_h / 2) (r^4 - Rmin^4)] through
    [moment_of_inertia], [tau = r tension], [alpha = tau / I], and returns
    [(omega, alpha, - r omega)], the derivatives of [(theta, omega, y)] in
    that order.  [tension] is the value the session holds under that name,
    and [I] is not zero, so that the quotient is a number. *)
Theorem unroll_slope_func_spec (g : globals) (state : Unroll.State) (t : R)
    (system : Unroll.System) (tension : R) :
  g !! "tension" = Some tension ->
  0 <= 2 * Unroll.k system * Unroll.y state + Unroll.Rmin system ^ 2 ->
  let r := sqrt (2 * Unroll.k system * Unroll.y state
                 + Unroll.Rmin system ^ 2) in
  let Ir := Unroll.Mcore system * Unroll.Rmin system ^ 2 +
            PI * Unroll.rho_h system / 2 * (r ^ 4 - Unroll.Rmin system ^ 4) in
  let tau := r * tension in
  let alpha := tau / Ir in
  Ir <> 0 ->
  Unroll.moment_of_inertia r system g = (Ok Ir, entries system ∪ g) /\
  Unroll.slope_func state t system g =
    (Ok (Unroll.omega state, alpha, - r * Unroll.omega state),
     entries system ∪ g).
Proof.
  intros Htension Hr. cbv zeta. intros HIr.
  split; [apply moment_of_inertia_ok |].
  now apply (unroll_slope_func_ok g state t system tension _ _ Htension Hr).
Qed.

Lemma unroll_slope_func_spec_witness :
  Unroll.moment_of_inertia (sqrt (2 * 1 * 4 + 1 ^ 2)) Unroll.unit_system
    Unroll.unit_session =
    (Ok (1 * 1 ^ 2 + PI * 2 / 2 * (sqrt (2 * 1 * 4 + 1 ^ 2) ^ 4 - 1 ^ 4)),
     entries Unroll.unit_system ∪ Unroll.unit_session) /\
  Unroll.slope_func Unroll.unit_state 0 Unroll.unit_system
    Unroll.unit_session =
    (Ok (3,
         sqrt (2 * 1 * 4 + 1 ^ 2) * 1 /
           (1 * 1 ^ 2 +
            PI * 2 / 2 * (sqrt (2 * 1 * 4 + 1 ^ 2) ^ 4 - 1 ^ 4)),
         - sqrt (2 * 1 * 4 + 1 ^ 2) * 3),
     entries Unroll.unit_system ∪ Unroll.unit_session).
Proof.
  apply (unroll_slope_func_spec Unroll.unit_session Unroll.unit_state 0
           Unroll.unit_system 1).
  - reflexivity.
  - cbn. lra.
  - cbn [Unroll.k Unroll.y Unroll.Rmin Unroll.Mcore Unroll.rho_h
         Unroll.unit_system Unroll.unit_state].
    unfold Unroll.unit_system, Unroll.unit_state.
    cbn [Unroll.k Unroll.y Unroll.Rmin Unroll.Mcore Unroll.rho_h].
    replace (sqrt (2 * 1 * 4 + 1 ^ 2) ^ 4)
      with ((sqrt (2 * 1 * 4 + 1 ^ 2) ^ 2) ^ 2) by ring.
    rewrite pow2_sqrt by lra.
    pose proof PI_RGT_0. lra.
Defined.

(** X9: the system that [make_system] builds has no [tension] entry: in a
    session that never unpacked a condition the slope function stops at
    that name. *)
Lemma unroll_slope_func_needs_tension (g : globals) (state : Unroll.State)
    (t : R) (system : Unroll.System) :
  g !! "tension" = None ->
  0 <= 2 * Unroll.k system * Unroll.y state + Unroll.Rmin system ^ 2 ->
  Unroll.slope_func state t system g =
    (Raise (NameError "tension"), entries system ∪ g).
Proof.
  intros Htension Hr.
  destruct state as [theta omega y]. cbn [Unroll.y] in Hr.
  unfold Unroll.slope_func. cbv beta iota.
  do 4 step.
  erewrite bind_ok by apply moment_of_inertia_ok.
  rewrite unpack_twice.
  erewrite bind_raise; [reflexivity |].
  apply var_unbound. now rewrite lookup_union_r by reflexivity.
Qed.

(** C9: a system assembled from a valid unrolling condition ([0 < Mroll],
    [0 < Rmin < Rmax], [0 < L]) has [0 < rho_h]; its moment of inertia is
    strictly increasing in [r] on the interval from [Rmin] to [Rmax], and
    smaller at [Rmin] than at [Rmax]. *)
Theorem moment_of_inertia_increasing (g g' : globals) (c : globals)
    (Rmin Rmax Mcore Mroll L duration : R) :
  Unroll.params c Rmin Rmax Mcore Mroll L duration ->
  0 < Mroll -> 0 < Rmin -> Rmin < Rmax -> 0 < L ->
  exists system,
    Unroll.make_system c g = (Ok system, c ∪ g) /\
    0 < Unroll.rho_h system /\
    (forall r1 r2, Rmin <= r1 -> r1 < r2 -> r2 <= Rmax ->
       exists I1 I2,
         fst (Unroll.moment_of_inertia r1 system g') = Ok I1 /\
         fst (Unroll.moment_of_inertia r2 system g') = Ok I2 /\
         I1 < I2) /\
    (exists Imin Imax,
       fst (Unroll.moment_of_inertia (Unroll.Rmin system) system g')
         = Ok Imin /\
       fst (Unroll.moment_of_inertia (Unroll.Rmax system) system g')
         = Ok Imax /\
       Imin < Imax).
Proof.
  intros Hc HMroll HRmin HRmax HL.
  pose proof (squares_apart Rmin Rmax HRmin HRmax) as Hsq.
  pose proof PI_RGT_0 as Hpi.
  assert (Hrho : 0 < Mroll / (PI * (Rmax ^ 2 - Rmin ^ 2))).
  { apply Rdiv_lt_0_compat; [assumption | apply Rmult_lt_0_compat; lra]. }
  assert (Hmono : forall r1 r2, Rmin <= r1 -> r1 < r2 ->
            Mcore * Rmin ^ 2 +
              PI * (Mroll / (PI * (Rmax ^ 2 - Rmin ^ 2))) / 2
                * (r1 ^ 4 - Rmin ^ 4) <
            Mcore * Rmin ^ 2 +
              PI * (Mroll / (PI * (Rmax ^ 2 - Rmin ^ 2))) / 2
                * (r2 ^ 4 - Rmin ^ 4)).
  { intros r1 r2 H1 H12.
    assert (H4 : r1 ^ 4 < r2 ^ 4) by (apply fourth_powers_apart; lra).
    apply Rplus_lt_compat_l, Rmult_lt_compat_l; [| lra].
    apply Rdiv_lt_0_compat; [apply Rmult_lt_0_compat |]; lra. }
  eexists. split; [| split; [| split]].
  - apply unroll_make_system_ok with (1 := Hc); lra.
  - exact Hrho.
  - intros r1 r2 H1 H12 H2. do 2 eexists.
    rewrite !moment_of_inertia_ok. cbn.
    split; [reflexivity |]. split; [reflexivity |]. now apply Hmono.
  - do 2 eexists. rewrite !moment_of_inertia_ok. cbn.
    split; [reflexivity |]. split; [reflexivity |]. apply Hmono; lra.
Qed.

Lemma moment_of_inertia_increasing_witness :
  exists system,
    Unroll.make_system Unroll.condition ∅ =
      (Ok system, Unroll.condition ∪ ∅) /\
    0 < Unroll.rho_h system /\
    (forall r1 r2, 0.02 * Units.m <= r1 -> r1 < r2 -> r2 <= 0.055 * Units.m ->
       exists I1 I2,
         fst (Unroll.moment_of_inertia r1 system ∅) = Ok I1 /\
         fst (Unroll.moment_of_inertia r2 system ∅) = Ok I2 /\
         I1 < I2) /\
    (exists Imin Imax,
       fst (Unroll.moment_of_inertia (Unroll.Rmin system) system ∅)
         = Ok Imin /\
       fst (Unroll.moment_of_inertia (Unroll.Rmax system) system ∅)
         = Ok Imax /\
       Imin < Imax).
Proof.
  apply (moment_of_inertia_increasing ∅ ∅ Unroll.condition
           (0.02 * Units.m) (0.055 * Units.m) (15e-3 * Units.kg)
           (215e-3 * Units.kg) (47 * Units.m) (180 * Units.s));
    [repeat split; reflexivity | unfold Units.m, Units.kg; lra ..].
Defined.

(** ** The time grid and the initial state *)

Lemma linspace_length (start stop : R) (num : nat) :
  length (linspace start stop num) = num.
Proof.
  destruct num as [| [| div]]; [reflexivity .. |].
  unfold linspace.
  rewrite length_app, length_map, length_seq. cbn. lia.
Qed.

Lemma linspace_lookup_inner (start stop : R) (div i : nat) :
  (i < S div)%nat ->
  linspace start stop (S (S div)) !! i =
    Some (start + INR i * ((stop - start) / INR (S div))).
Proof.
  intros Hi. unfold linspace.
  change (map ?f ?l) with (f <$> l).
  rewrite lookup_app_l by (rewrite length_fmap, length_seq; exact Hi).
  rewrite list_lookup_fmap, lookup_seq_lt by exact Hi.
  reflexivity.
Qed.

Lemma linspace_lookup_last (start stop : R) (div : nat) :
  linspace start stop (S (S div)) !! S div = Some stop.
Proof.
  unfold linspace.
  change (map ?f ?l) with (f <$> l).
  rewrite lookup_app_r by (rewrite length_fmap, length_seq; lia).
  rewrite length_fmap, length_seq, Nat.sub_diag. reflexivity.
Qed.

Lemma INR_100 : INR 100 = 100.
Proof. rewrite INR_IZR_INZ. reflexivity. Qed.

Lemma linspace_time_grid (duration : R) :
  0 <= duration -> time_grid duration (linspace 0 duration 101).
Proof.
  intros Hd. unfold time_grid. split; [| split; [| split]].
  - apply linspace_length.
  - rewrite linspace_lookup_inner by lia. f_equal. cbn [INR]. lra.
  - apply linspace_lookup_last.
  - intros i Hi.
    destruct (Nat.eq_dec (S i) 100%nat) as [E | E].
    + do 2 eexists. split; [apply linspace_lookup_inner; lia |].
      split; [rewrite E; apply linspace_lookup_last |].
      assert (Ei : INR i = 99).
      { replace i with 99%nat by lia. rewrite INR_IZR_INZ. reflexivity. }
      rewrite INR_100, Ei. lra.
    + do 2 eexists. split; [apply linspace_lookup_inner; lia |].
      split; [apply linspace_lookup_inner; lia |].
      rewrite S_INR, INR_100. lra.
Qed.

Lemma yoyo_make_system_ok (gl c : globals) Rmin Rmax Rout mass L g duration :
  Yoyo.params c Rmin Rmax Rout mass L g duration ->
  L <> 0 ->
  Yoyo.make_system c gl =
    (Ok (Yoyo.mkSystem
           (Yoyo.mkState (0 * Units.radian) (0 * Units.radian / Units.s) L
                         (0 * Units.m / Units.s))
           ((Rmax ^ 2 - Rmin ^ 2) / 2 / L / Units.radian)
           Rmin Rmax mass (mass * Rout ^ 2 / 2) g
           (linspace 0 duration 101)),
     c ∪ gl).
Proof.
  intros (c_Rmin & c_Rmax & c_Rout & c_mass & c_L & c_g & c_duration) HL.
  unfold Yoyo.make_system.
  do 13 step. reflexivity.
Qed.

(** C8: for a valid condition of each of the three scenarios
    ([0 < Rmin < Rmax], [0 < L], [0 < duration]) [make_system] returns a
    system whose initial state has [theta = 0] and whose time grid has 101
    evenly spaced, non-decreasing points, the first 0 and the last
    [duration]. *)
Theorem make_system_init_and_grid (g : globals) :
  (forall c duration, Roll.valid c duration ->
   exists system,
     Roll.make_system c g = (Ok system, c ∪ g) /\
     Roll.theta (Roll.init system) = 0 /\
     time_grid duration (Roll.ts system)) /\
  (forall c duration, Unroll.valid c duration ->
   exists system,
     Unroll.make_system c g = (Ok system, c ∪ g) /\
     Unroll.theta (Unroll.init system) = 0 /\
     time_grid duration (Unroll.ts system)) /\
  (forall c duration, Yoyo.valid c duration ->
   exists system,
     Yoyo.make_system c g = (Ok system, c ∪ g) /\
     Yoyo.theta (Yoyo.init system) = 0 /\
     time_grid duration (Yoyo.ts system)).
Proof.
  split; [| split]; intros c duration.
  - intros (Rmin & Rmax & L & Hc & HRmin & HRmax & HL & Hd).
    eexists. split; [| split].
    + apply roll_make_system_ok with (1 := Hc); lra.
    + cbn. unfold Units.radian. lra.
    + apply linspace_time_grid. lra.
  - intros (Rmin & Rmax & Mcore & Mroll & L & Hc & HRmin & HRmax & HL & Hd).
    pose proof (squares_apart Rmin Rmax HRmin HRmax) as Hsq.
    eexists. split; [| split].
    + apply unroll_make_system_ok with (1 := Hc); lra.
    + cbn. unfold Units.radian. lra.
    + apply linspace_time_grid. lra.
  - intros (Rmin & Rmax & Rout & mass & L & gv & Hc &
            HRmin & HRmax & HL & Hd).
    eexists. split; [| split].
    + apply yoyo_make_system_ok with (1 := Hc); lra.
    + cbn. unfold Units.radian. lra.
    + apply linspace_time_grid. lra.
Qed.

Lemma make_system_init_and_grid_witness :
  (exists system,
     Roll.make_system Roll.condition ∅ = (Ok system, Roll.condition ∪ ∅) /\
     Roll.theta (Roll.init system) = 0 /\
     time_grid (130 * Units.s) (Roll.ts system)) /\
  (exists system,
     Unroll.make_system Unroll.condition ∅ =
       (Ok system, Unroll.condition ∪ ∅) /\
     Unroll.theta (Unroll.init system) = 0 /\
     time_grid (180 * Units.s) (Unroll.ts system)) /\
  (exists system,
     Yoyo.make_system Yoyo.condition ∅ = (Ok system, Yoyo.condition ∪ ∅) /\
     Yoyo.theta (Yoyo.init system) = 0 /\
     time_grid (1 * Units.s) (Yoyo.ts system)).
Proof.
  destruct (make_system_init_and_grid ∅) as (Hroll & Hunroll & Hyoyo).
  split; [| split].
  - apply Hroll.
    exists (0.02 * Units.m), (0.055 * Units.m), (47 * Units.m).
    split; [repeat split; reflexivity |]. unfold Units.m, Units.s. lra.
  - apply Hunroll.
    exists (0.02 * Units.m), (0.055 * Units.m), (15e-3 * Units.kg),
           (215e-3 * Units.kg), (47 * Units.m).
    split; [repeat split; reflexivity |]. unfold Units.m, Units.s. lra.
  - apply Hyoyo.
    exists (8e-3 * Units.m), (16e-3 * Units.m), (35e-3 * Units.m),
           (50e-3 * Units.kg), (1 * Units.m),
           (9.8 * Units.m / Units.s ^ 2).
    split; [repeat split; reflexivity |]. unfold Units.m, Units.s. lra.
Defined.

(** ** The two derivations of [k] *)

(** C10 as stated fails: on the radii and the length of the yo-yo
    condition the binary64 value that [estimate_k] returns,
    9.599999999999999e-05, is not the one that [make_system] stores,
    9.6e-05. *)
Lemma estimate_k_closed_form_counterexample :
  Binary64.estimate_k Binary64.yoyo_Rmin Binary64.yoyo_Rmax Binary64.yoyo_L
    = Some Binary64.below_96e_6 /\
  Binary64.make_system_k Binary64.yoyo_Rmin Binary64.yoyo_Rmax
    Binary64.yoyo_L = Some Binary64.nearest_96e_6 /\
  Binary64.estimate_k Binary64.yoyo_Rmin Binary64.yoyo_Rmax Binary64.yoyo_L
    <> Binary64.make_system_k Binary64.yoyo_Rmin Binary64.yoyo_Rmax
         Binary64.yoyo_L.
Proof.
  assert (Hest : Binary64.estimate_k Binary64.yoyo_Rmin Binary64.yoyo_Rmax
                   Binary64.yoyo_L = Some Binary64.below_96e_6)
    by (vm_compute; reflexivity).
  assert (Hsys : Binary64.make_system_k Binary64.yoyo_Rmin
                   Binary64.yoyo_Rmax Binary64.yoyo_L
                 = Some Binary64.nearest_96e_6)
    by (vm_compute; reflexivity).
  split; [exact Hest |]. split; [exact Hsys |].
  rewrite Hest, Hsys. intros Heq.
  apply (f_equal (fun o => match o with
                           | Some x => PrimFloat.eqb x Binary64.below_96e_6
                           | None => false
                           end)) in Heq.
  vm_compute in Heq. discriminate.
Qed.

(** C10, amended: for a condition with [0 < Rmin <= Rmax] and [0 < L],
    the value of [estimate_k] and the closed form
    [(Rmax^2 - Rmin^2) / (2 L)] are the same real number, and so are the
    [k] that the yo-yo [make_system] and, when [Rmin < Rmax] so that it
    returns, the unrolling [make_system] store for the same radii and
    length: the two derivations agree in exact arithmetic, up to the
    rounding of the binary64 operations. *)
Theorem estimate_k_closed_form (g c : globals) (Rmin Rmax L : R) :
  c !! "Rmin" = Some Rmin -> c !! "Rmax" = Some Rmax -> c !! "L" = Some L ->
  0 < Rmin -> Rmin <= Rmax -> 0 < L ->
  exists k,
    Roll.estimate_k c g = (Ok k, c ∪ g) /\
    k = closed_form_k Rmin Rmax L /\
    (forall gy cy Rout mass grav duration,
       Yoyo.params cy Rmin Rmax Rout mass L grav duration ->
       exists system,
         Yoyo.make_system cy gy = (Ok system, cy ∪ gy) /\
         Yoyo.k system = k) /\
    (forall gu cu Mcore Mroll duration,
       Unroll.params cu Rmin Rmax Mcore Mroll L duration ->
       Rmin < Rmax ->
       exists system,
         Unroll.make_system cu gu = (Ok system, cu ∪ gu) /\
         Unroll.k system = k).
Proof.
  intros c_Rmin c_Rmax c_L HRmin HRmax HL.
  pose proof PI_RGT_0 as Hpi.
  assert (Hk : (Rmax - Rmin) / (2 * PI * (L / (2 * PI * ((Rmax + Rmin) / 2))))
               = closed_form_k Rmin Rmax L).
  { unfold closed_form_k. field. repeat split; lra. }
  eexists. split; [| split; [| split]].
  - apply (estimate_k_ok g c Rmin Rmax L); auto; lra.
  - exact Hk.
  - intros gy cy Rout mass grav duration Hy.
    eexists. split; [apply yoyo_make_system_ok with (1 := Hy); lra |].
    rewrite Hk. cbn. unfold closed_form_k, Units.radian. field. lra.
  - intros gu cu Mcore Mroll duration Hu Hlt.
    pose proof (squares_apart Rmin Rmax HRmin Hlt) as Hsq.
    eexists. split; [apply unroll_make_system_ok with (1 := Hu); lra |].
    rewrite Hk. cbn. unfold closed_form_k, Units.radian. field. lra.
Qed.

Lemma estimate_k_closed_form_witness :
  exists k,
    Roll.estimate_k Roll.condition ∅ = (Ok k, Roll.condition ∪ ∅) /\
    k = closed_form_k (0.02 * Units.m) (0.055 * Units.m) (47 * Units.m) /\
    (forall gy cy Rout mass grav duration,
       Yoyo.params cy (0.02 * Units.m) (0.055 * Units.m) Rout mass
         (47 * Units.m) grav duration ->
       exists system,
         Yoyo.make_system cy gy = (Ok system, cy ∪ gy) /\
         Yoyo.k system = k) /\
    (forall gu cu Mcore Mroll duration,
       Unroll.params cu (0.02 * Units.m) (0.055 * Units.m) Mcore Mroll
         (47 * Units.m) duration ->
       0.02 * Units.m < 0.055 * Units.m ->
       exists system,
         Unroll.make_system cu gu = (Ok system, cu ∪ gu) /\
         Unroll.k system = k).
Proof.
  apply (estimate_k_closed_form ∅ Roll.condition (0.02 * Units.m)
           (0.055 * Units.m) (47 * Units.m));
    try reflexivity; unfold Units.m; lra.
Defined.

(** ** The yo-yo past the end of its string *)

Lemma yoyo_slope_func_spent (g : globals) (state : Yoyo.State) (t : R)
    (system : Yoyo.System) :
  Yoyo.y state < 0 ->
  Yoyo.slope_func state t system g = (Ok (0, 0, 0, 0), entries system ∪ g).
Proof.
  intros Hy. destruct state as [theta omega y v]. cbn [Yoyo.y] in Hy.
  unfold Yoyo.slope_func. cbv beta iota. step.
  destruct (Rlt_dec y 0); [reflexivity | contradiction].
Qed.

Lemma yoyo_slope_func_running (gl : globals) (state : Yoyo.State) (t : R)
    (system : Yoyo.System) :
  0 <= Yoyo.y state ->
  0 <= 2 * Yoyo.k system * Yoyo.y state + Yoyo.Rmin system ^ 2 ->
  let r := sqrt (2 * Yoyo.k system * Yoyo.y state
                 + Yoyo.Rmin system ^ 2) in
  let Istar := Yoyo.I system + Yoyo.mass system * r ^ 2 in
  Istar <> 0 ->
  Yoyo.slope_func state t system gl =
    (Ok (Yoyo.omega state,
         Yoyo.mass system * Yoyo.g system * r / Istar,
         Yoyo.v state,
         - Yoyo.mass system * Yoyo.g system * r ^ 2 / Istar),
     entries system ∪ gl).
Proof.
  destruct state as [theta omega y v]. cbn [Yoyo.y Yoyo.omega Yoyo.v].
  intros Hy Hr. cbv zeta. intros HIstar.
  unfold Yoyo.slope_func. cbv beta iota. step.
  destruct (Rlt_dec y 0); [lra |].
  do 9 step. reflexivity.
Qed.

Lemma advance_zero (h : R) (state : Yoyo.State) :
  Yoyo.advance h state (0, 0, 0, 0) = state.
Proof.
  destruct state as [theta omega y v]. unfold Yoyo.advance. cbn.
  f_equal; lra.
Qed.

Lemma integrate_spent (system : Yoyo.System) (state : Yoyo.State)
    (steps : list R) :
  Yoyo.y state < 0 ->
  forall (t : R) (g : globals),
    fst (Yoyo.integrate system state t steps g) =
      Ok (replicate (S (length steps)) state).
Proof.
  intros Hy. induction steps as [| h steps IH]; intros t g.
  - reflexivity.
  - cbn [Yoyo.integrate length].
    erewrite bind_ok by (apply yoyo_slope_func_spent; exact Hy).
    rewrite advance_zero.
    specialize (IH (t + h) (entries system ∪ g)).
    unfold bind.
    destruct (Yoyo.integrate system state (t + h) steps
                (entries system ∪ g)) as [[samples | e] g'];
      cbn in IH; [| discriminate].
    injection IH as ->. reflexivity.
Qed.

(** C4: on every state with [y < 0], at every time and for every system,
    the yo-yo slope function returns the all-zero derivatives
    [(0, 0, 0, 0)].  The state is therefore frozen: a step of any size
    leaves it unchanged, and every sample recorded from it onwards repeats
    it, so that [y] stays at the value it had when it crossed zero. *)
Theorem yoyo_slope_func_frozen (g : globals) (state : Yoyo.State) (t : R)
    (system : Yoyo.System) :
  Yoyo.y state < 0 ->
  Yoyo.slope_func state t system g = (Ok (0, 0, 0, 0), entries system ∪ g) /\
  (forall h, Yoyo.advance h state (0, 0, 0, 0) = state) /\
  (forall steps : list R,
     exists samples,
       fst (Yoyo.integrate system state t steps g) = Ok samples /\
       length samples = S (length steps) /\
       forall sample, sample ∈ samples ->
         sample = state /\ Yoyo.y sample = Yoyo.y state).
Proof.
  intros Hy. split; [now apply yoyo_slope_func_spent |].
  split; [intros h; apply advance_zero |].
  intros steps. exists (replicate (S (length steps)) state).
  split; [now apply integrate_spent |].
  split; [apply length_replicate |].
  intros sample Hin. apply elem_of_replicate in Hin as [-> _]. now split.
Qed.

Lemma yoyo_slope_func_frozen_witness :
  Yoyo.slope_func Yoyo.spent_state 0 Yoyo.unit_system ∅ =
    (Ok (0, 0, 0, 0), entries Yoyo.unit_system ∪ ∅) /\
  (forall h, Yoyo.advance h Yoyo.spent_state (0, 0, 0, 0)
             = Yoyo.spent_state) /\
  (forall steps : list R,
     exists samples,
       fst (Yoyo.integrate Yoyo.unit_system Yoyo.spent_state 0 steps ∅)
         = Ok samples /\
       length samples = S (length steps) /\
       forall sample, sample ∈ samples ->
         sample = Yoyo.spent_state /\
         Yoyo.y sample = Yoyo.y Yoyo.spent_state).
Proof.
  apply (yoyo_slope_func_frozen ∅ Yoyo.spent_state 0 Yoyo.unit_system).
  cbn. lra.
Defined.

(** ** Where the assembly of a system stops *)

(** X1: the unrolling [make_system] divides by the area of the paper and by
    the length: it returns a system, which carries the parameters of the
    condition unchanged and starts fully rolled at rest, exactly when
    [Rmax^2 <> Rmin^2] and [L <> 0], and raises [ZeroDivisionError]
    otherwise, in particular on equal radii. *)
Theorem unroll_make_system_defined (g c : globals)
    (Rmin Rmax Mcore Mroll L duration : R) :
  Unroll.params c Rmin Rmax Mcore Mroll L duration ->
  (Rmax ^ 2 <> Rmin ^ 2 /\ L <> 0 ->
   exists system,
     Unroll.make_system c g = (Ok system, c ∪ g) /\
     Unroll.init system = Unroll.mkState 0 0 L /\
     Unroll.Rmin system = Rmin /\ Unroll.Rmax system = Rmax /\
     Unroll.Mcore system = Mcore /\ Unroll.Mroll system = Mroll) /\
  (Rmax ^ 2 = Rmin ^ 2 \/ L = 0 ->
   Unroll.make_system c g = (Raise ZeroDivisionError, c ∪ g)).
Proof.
  intros Hc. split.
  - intros [Hsq HL]. eexists. split.
    + apply unroll_make_system_ok with (1 := Hc); [lra | exact HL].
    + cbn. repeat split. unfold Units.radian, Units.s. f_equal; lra.
  - intros Hzero.
    destruct Hc as (c_Rmin & c_Rmax & c_Mcore & c_Mroll & c_L & c_duration).
    unfold Unroll.make_system. do 5 step.
    destruct (Req_dec_T (Rmax ^ 2) (Rmin ^ 2)) as [Hsq | Hsq].
    + erewrite bind_raise; [reflexivity |].
      apply truediv_raise. rewrite Hsq. lra.
    + destruct Hzero as [Hsq' | HL]; [contradiction |].
      assert (Harea : PI * (Rmax ^ 2 - Rmin ^ 2) <> 0).
      { pose proof PI_RGT_0.
        apply Rmult_integral_contrapositive_currified; lra. }
      do 4 step.
      erewrite bind_raise; [reflexivity |].
      now apply truediv_raise.
Qed.

Lemma unroll_make_system_defined_witness :
  (1 ^ 2 <> 1 ^ 2 /\ 2 <> 0 ->
   exists system,
     Unroll.make_system
       (Condition [("Rmin", 1); ("Rmax", 1); ("Mcore", 1); ("Mroll", 1);
                   ("L", 2); ("duration", 1)]) ∅ =
       (Ok system,
        Condition [("Rmin", 1); ("Rmax", 1); ("Mcore", 1); ("Mroll", 1);
                   ("L", 2); ("duration", 1)] ∪ ∅) /\
     Unroll.init system = Unroll.mkState 0 0 2 /\
     Unroll.Rmin system = 1 /\ Unroll.Rmax system = 1 /\
     Unroll.Mcore system = 1 /\ Unroll.Mroll system = 1) /\
  (1 ^ 2 = 1 ^ 2 \/ 2 = 0 ->
   Unroll.make_system
     (Condition [("Rmin", 1); ("Rmax", 1); ("Mcore", 1); ("Mroll", 1);
                 ("L", 2); ("duration", 1)]) ∅ =
     (Raise ZeroDivisionError,
      Condition [("Rmin", 1); ("Rmax", 1); ("Mcore", 1); ("Mroll", 1);
                 ("L", 2); ("duration", 1)] ∪ ∅)).
Proof.
  apply (unroll_make_system_defined ∅ _ 1 1 1 1 2 1).
  repeat split; reflexivity.
Defined.

(** X2: the yo-yo [make_system] divides by the length only: whatever the radii,
    equal or in reverse order, it returns a system with
    [I = mass Rout^2 / 2] and [k = (Rmax^2 - Rmin^2) / (2 L)] when
    [L <> 0], and raises [ZeroDivisionError] when [L = 0]. *)
Theorem yoyo_make_system_defined (gl c : globals)
    (Rmin Rmax Rout mass L g duration : R) :
  Yoyo.params c Rmin Rmax Rout mass L g duration ->
  (L <> 0 ->
   exists system,
     Yoyo.make_system c gl = (Ok system, c ∪ gl) /\
     Yoyo.init system = Yoyo.mkState 0 0 L 0 /\
     Yoyo.I system = mass * Rout ^ 2 / 2 /\
     Yoyo.k system = (Rmax ^ 2 - Rmin ^ 2) / (2 * L) /\
     Yoyo.mass system = mass /\ Yoyo.g system = g) /\
  (L = 0 -> Yoyo.make_system c gl = (Raise ZeroDivisionError, c ∪ gl)).
Proof.
  intros Hc. split.
  - intros HL. eexists. split.
    + now apply yoyo_make_system_ok with (1 := Hc).
    + cbn. unfold Units.radian, Units.s, Units.m.
      split; [f_equal; lra |]. split; [reflexivity |].
      split; [field; exact HL |]. now split.
  - intros HL.
    destruct Hc as (c_Rmin & c_Rmax & c_Rout & c_mass & c_L & c_g & c_d).
    unfold Yoyo.make_system. do 7 step.
    erewrite bind_raise; [reflexivity |].
    now apply truediv_raise.
Qed.

Lemma yoyo_make_system_defined_witness :
  (1 <> 0 ->
   exists system,
     Yoyo.make_system
       (Condition [("Rmin", 2); ("Rmax", 2); ("Rout", 3); ("mass", 4);
                   ("L", 1); ("g", 10); ("duration", 1)]) ∅ =
       (Ok system,
        Condition [("Rmin", 2); ("Rmax", 2); ("Rout", 3); ("mass", 4);
                   ("L", 1); ("g", 10); ("duration", 1)] ∪ ∅) /\
     Yoyo.init system = Yoyo.mkState 0 0 1 0 /\
     Yoyo.I system = 4 * 3 ^ 2 / 2 /\
     Yoyo.k system = (2 ^ 2 - 2 ^ 2) / (2 * 1) /\
     Yoyo.mass system = 4 /\ Yoyo.g system = 10) /\
  (1 = 0 ->
   Yoyo.make_system
     (Condition [("Rmin", 2); ("Rmax", 2); ("Rout", 3); ("mass", 4);
                 ("L", 1); ("g", 10); ("duration", 1)]) ∅ =
     (Raise ZeroDivisionError,
      Condition [("Rmin", 2); ("Rmax", 2); ("Rout", 3); ("mass", 4);
                 ("L", 1); ("g", 10); ("duration", 1)] ∪ ∅)).
Proof.
  apply (yoyo_make_system_defined ∅ _ 2 2 3 4 1 10 1).
  repeat split; reflexivity.
Defined.

(** ** Parameters the condition does not bind *)

(** X3: a parameter that neither the condition nor the session binds stops
    [estimate_k] with a [NameError] at its first use: here the length,
    read after both radii. *)
Theorem estimate_k_unbound_length (g c : globals) (Rmin Rmax : R) :
  c !! "Rmin" = Some Rmin -> c !! "Rmax" = Some Rmax ->
  c !! "L" = None -> g !! "L" = None ->
  Roll.estimate_k c g = (Raise (NameError "L"), c ∪ g).
Proof.
  intros c_Rmin c_Rmax c_L g_L.
  unfold Roll.estimate_k. do 3 step.
  erewrite bind_raise; [reflexivity |].
  apply var_unbound. apply lookup_union_None. now split.
Qed.

Lemma estimate_k_unbound_length_witness :
  Roll.estimate_k (Condition [("Rmin", 1); ("Rmax", 2)]) ∅ =
    (Raise (NameError "L"), Condition [("Rmin", 1); ("Rmax", 2)] ∪ ∅).
Proof.
  apply (estimate_k_unbound_length ∅ _ 1 2); reflexivity.
Defined.

(** X4: a parameter the condition leaves out is taken from the session when an
    earlier [unpack] left one there: [estimate_k] then returns the value
    computed with the length of the session, without any error. *)
Theorem estimate_k_session_length (g c : globals) (Rmin Rmax L : R) :
  c !! "Rmin" = Some Rmin -> c !! "Rmax" = Some Rmax ->
  c !! "L" = None -> g !! "L" = Some L ->
  Rmax + Rmin <> 0 -> L <> 0 ->
  Roll.estimate_k c g =
    (Ok ((Rmax - Rmin) / (2 * PI * (L / (2 * PI * ((Rmax + Rmin) / 2))))),
     c ∪ g).
Proof.
  intros c_Rmin c_Rmax c_L g_L Hsum HL.
  assert (cg_L : (c ∪ g) !! "L" = Some L)
    by (rewrite lookup_union_r; assumption).
  assert (HC : 2 * PI * ((Rmax + Rmin) / 2) <> 0).
  { pose proof PI_RGT_0. nra. }
  assert (Hrads : 2 * PI * (L / (2 * PI * ((Rmax + Rmin) / 2))) <> 0).
  { pose proof PI_RGT_0. intros E.
    apply Rmult_integral in E as [E | E]; [lra |].
    apply Rmult_integral in E as [E | E]; [lra |].
    now apply Rinv_neq_0_compat in HC. }
  unfold Roll.estimate_k. do 8 step. reflexivity.
Qed.

Lemma estimate_k_session_length_witness :
  Roll.estimate_k (Condition [("Rmin", 1); ("Rmax", 2)]) {[ "L" := 3 ]} =
    (Ok ((2 - 1) / (2 * PI * (3 / (2 * PI * ((2 + 1) / 2))))),
     Condition [("Rmin", 1); ("Rmax", 2)] ∪ {[ "L" := 3 ]}).
Proof.
  apply (estimate_k_session_length {[ "L" := 3 ]} _ 1 2 3);
    try reflexivity; lra.
Defined.

(** ** The moment of inertia *)

(** At the radius of the core the paper contributes nothing: for every
    system, [moment_of_inertia(system.Rmin, system)] is [Mcore Rmin^2]. *)
Theorem moment_of_inertia_core (g : globals) (system : Unroll.System) :
  exists Icore,
    Unroll.moment_of_inertia (Unroll.Rmin system) system g =
      (Ok Icore, entries system ∪ g) /\
    Icore = Unroll.Mcore system * Unroll.Rmin system ^ 2.
Proof.
  eexists. split; [apply moment_of_inertia_ok |]. ring.
Qed.

(** X6: with a non-negative areal density the moment of inertia at any radius
    from [Rmin] upwards is at least that of the core, so it is positive
    when the core has mass: the division of the slope function is then
    defined. *)
Theorem moment_of_inertia_lower_bound (g : globals) (r : R)
    (system : Unroll.System) :
  0 <= Unroll.rho_h system -> 0 <= Unroll.Rmin system ->
  Unroll.Rmin system <= r ->
  exists Ir,
    Unroll.moment_of_inertia r system g = (Ok Ir, entries system ∪ g) /\
    Unroll.Mcore system * Unroll.Rmin system ^ 2 <= Ir /\
    (0 < Unroll.Mcore system -> 0 < Unroll.Rmin system -> 0 < Ir).
Proof.
  intros Hrho HRmin Hr.
  pose proof PI_RGT_0 as Hpi.
  assert (H4 : Unroll.Rmin system ^ 4 <= r ^ 4) by (apply pow_incr; lra).
  assert (Hroll : 0 <= PI * Unroll.rho_h system / 2
                       * (r ^ 4 - Unroll.Rmin system ^ 4)).
  { apply Rmult_le_pos; [| lra].
    apply Rmult_le_pos; [apply Rmult_le_pos |]; lra. }
  eexists. split; [apply moment_of_inertia_ok |]. split; [lra |].
  intros HMcore HRmin'.
  assert (0 < Unroll.Mcore system * Unroll.Rmin system ^ 2); [| lra].
  apply Rmult_lt_0_compat; [assumption | apply pow_lt; assumption].
Qed.

Lemma moment_of_inertia_lower_bound_witness :
  exists Ir,
    Unroll.moment_of_inertia 2 Unroll.unit_system ∅ =
      (Ok Ir, entries Unroll.unit_system ∪ ∅) /\
    Unroll.Mcore Unroll.unit_system * Unroll.Rmin Unroll.unit_system ^ 2
      <= Ir /\
    (0 < Unroll.Mcore Unroll.unit_system ->
     0 < Unroll.Rmin Unroll.unit_system -> 0 < Ir).
Proof.
  apply (moment_of_inertia_lower_bound ∅ 2 Unroll.unit_system); cbn; lra.
Defined.

(** ** The unrolling slope function in a session *)

(** The radius the slope function derives from the paper still rolled. *)
Lemma radius_in_range (Rmin Rmax L y : R) :
  0 < Rmin -> Rmin < Rmax -> 0 < L -> 0 <= y <= L ->
  let a := 2 * ((Rmax ^ 2 - Rmin ^ 2) / 2 / L / Units.radian) * y
           + Rmin ^ 2 in
  0 <= a /\ Rmin <= sqrt a <= Rmax /\
  sqrt a ^ 2 = Rmin ^ 2 + (Rmax ^ 2 - Rmin ^ 2) * (y / L).
Proof.
  intros HRmin HRmax HL Hy. cbv zeta. unfold Units.radian.
  pose proof (squares_apart Rmin Rmax HRmin HRmax) as Hsq.
  assert (Hfrac : 0 <= y / L <= 1).
  { split.
    - apply Rmult_le_pos; [lra |]. apply Rlt_le, Rinv_0_lt_compat, HL.
    - apply Rmult_le_reg_r with L; [exact HL |].
      replace (y / L * L) with y by (field; lra). lra. }
  replace (2 * ((Rmax ^ 2 - Rmin ^ 2) / 2 / L / 1) * y + Rmin ^ 2)
    with (Rmin ^ 2 + (Rmax ^ 2 - Rmin ^ 2) * (y / L)) by (field; lra).
  set (a := Rmin ^ 2 + (Rmax ^ 2 - Rmin ^ 2) * (y / L)).
  assert (Hlo : Rmin ^ 2 <= a) by (unfold a; nra).
  assert (Hhi : a <= Rmax ^ 2) by (unfold a; nra).
  assert (Ha : 0 <= a) by nra.
  split; [exact Ha |]. split; [split |].
  - rewrite <- (sqrt_pow2 Rmin) by lra. now apply sqrt_le_1_alt.
  - rewrite <- (sqrt_pow2 Rmax) by lra. now apply sqrt_le_1_alt.
  - now apply pow2_sqrt.
Qed.

(** X7: after [make_system] on a valid condition that also binds the tension
    (positive radii in order, positive length, a core with mass, a roll
    with non-negative mass), the slope function returns on every state
    with [0 <= y <= L], without a square root of a negative number, an
    unbound name or a division by zero.  The radius [r] it works with
    lies between [Rmin] and [Rmax] and follows the paper still rolled; a
    positive tension gives a positive angular acceleration, and [y] does
    not grow while [omega] is non-negative. *)
Theorem unroll_slope_func_in_range (g c : globals)
    (Rmin Rmax Mcore Mroll L duration tension : R)
    (state : Unroll.State) (t : R) :
  Unroll.params c Rmin Rmax Mcore Mroll L duration ->
  c !! "tension" = Some tension ->
  0 < Rmin -> Rmin < Rmax -> 0 < L -> 0 < Mcore -> 0 <= Mroll ->
  0 <= Unroll.y state <= L ->
  exists r alpha,
    fst ((system <- Unroll.make_system c ;;
          Unroll.slope_func state t system) g) =
      Ok (Unroll.omega state, alpha, - r * Unroll.omega state) /\
    Rmin <= r <= Rmax /\
    r ^ 2 = Rmin ^ 2 + (Rmax ^ 2 - Rmin ^ 2) * (Unroll.y state / L) /\
    (0 < tension -> 0 < alpha) /\
    (0 <= Unroll.omega state -> - r * Unroll.omega state <= 0).
Proof.
  intros Hc Htension HRmin HRmax HL HMcore HMroll Hy.
  pose proof (squares_apart Rmin Rmax HRmin HRmax) as Hsq.
  pose proof PI_RGT_0 as Hpi.
  destruct (radius_in_range Rmin Rmax L (Unroll.y state)
              HRmin HRmax HL Hy) as (Ha & [Hlo Hhi] & Hr2).
  set (r := sqrt (2 * ((Rmax ^ 2 - Rmin ^ 2) / 2 / L / Units.radian)
                    * Unroll.y state + Rmin ^ 2)) in *.
  set (Ir := Mcore * Rmin ^ 2 +
             PI * (Mroll / (PI * (Rmax ^ 2 - Rmin ^ 2))) / 2
               * (r ^ 4 - Rmin ^ 4)).
  assert (HIr : 0 < Ir).
  { assert (H4 : Rmin ^ 4 <= r ^ 4) by (apply pow_incr; lra).
    assert (Hrho : 0 <= Mroll / (PI * (Rmax ^ 2 - Rmin ^ 2))).
    { apply Rmult_le_pos; [lra |].
      apply Rlt_le, Rinv_0_lt_compat, Rmult_lt_0_compat; lra. }
    assert (Hcore : 0 < Mcore * Rmin ^ 2).
    { apply Rmult_lt_0_compat; [lra | apply pow_lt; lra]. }
    assert (0 <= PI * (Mroll / (PI * (Rmax ^ 2 - Rmin ^ 2))) / 2
                 * (r ^ 4 - Rmin ^ 4)); [| unfold Ir; lra].
    apply Rmult_le_pos; [| lra].
    apply Rmult_le_pos; [apply Rmult_le_pos |]; lra. }
  exists r, (r * tension / Ir).
  split; [| split; [split; assumption | split; [exact Hr2 | split]]].
  - erewrite bind_ok
      by (apply unroll_make_system_ok with (1 := Hc); lra).
    erewrite (unroll_slope_func_ok _ _ _ _ tension r Ir);
      [reflexivity | | exact Ha | reflexivity | reflexivity | lra].
    now apply lookup_unpacked.
  - intros Ht. apply Rdiv_lt_0_compat; [| exact HIr].
    apply Rmult_lt_0_compat; lra.
  - intros Hw. assert (0 <= r * Unroll.omega state)
      by (apply Rmult_le_pos; lra). lra.
Qed.

Lemma unroll_slope_func_in_range_witness :
  exists r alpha,
    fst ((system <- Unroll.make_system Unroll.condition ;;
          Unroll.slope_func Unroll.unit_state 0 system) ∅) =
      Ok (Unroll.omega Unroll.unit_state, alpha,
          - r * Unroll.omega Unroll.unit_state) /\
    0.02 * Units.m <= r <= 0.055 * Units.m /\
    r ^ 2 = (0.02 * Units.m) ^ 2 +
            ((0.055 * Units.m) ^ 2 - (0.02 * Units.m) ^ 2)
              * (Unroll.y Unroll.unit_state / (47 * Units.m)) /\
    (0 < 2e-4 * Units.N -> 0 < alpha) /\
    (0 <= Unroll.omega Unroll.unit_state ->
     - r * Unroll.omega Unroll.unit_state <= 0).
Proof.
  apply (unroll_slope_func_in_range ∅ Unroll.condition
           (0.02 * Units.m) (0.055 * Units.m) (15e-3 * Units.kg)
           (215e-3 * Units.kg) (47 * Units.m) (180 * Units.s)
           (2e-4 * Units.N) Unroll.unit_state 0);
    [repeat split; reflexivity | reflexivity
    | unfold Units.m, Units.kg, Unroll.unit_state; cbn [Unroll.y]; lra ..].
Defined.

(** X8: the cell that tests the slope function, [slope_func(system.init, 0*s,
    system)] after [make_system]: the roll starts at rest with radius
    [Rmax], so the derivatives of [theta] and [y] are zero and the angular
    acceleration is [Rmax tension] over the moment of the full roll. *)
Theorem unroll_slope_func_at_init (g c : globals)
    (Rmin Rmax Mcore Mroll L duration tension t : R) :
  Unroll.params c Rmin Rmax Mcore Mroll L duration ->
  c !! "tension" = Some tension ->
  0 < Rmin -> Rmin < Rmax -> 0 < L -> 0 < Mcore -> 0 <= Mroll ->
  exists dtheta alpha dy,
    fst ((system <- Unroll.make_system c ;;
          Unroll.slope_func (Unroll.init system) t system) g) =
      Ok (dtheta, alpha, dy) /\
    dtheta = 0 /\ dy = 0 /\
    alpha = Rmax * tension /
              (Mcore * Rmin ^ 2 + Mroll * (Rmax ^ 2 + Rmin ^ 2) / 2).
Proof.
  intros Hc Htension HRmin HRmax HL HMcore HMroll.
  pose proof (squares_apart Rmin Rmax HRmin HRmax) as Hsq.
  pose proof PI_RGT_0 as Hpi.
  assert (Harg : 2 * ((Rmax ^ 2 - Rmin ^ 2) / 2 / L / Units.radian) * L
                 + Rmin ^ 2 = Rmax ^ 2).
  { unfold Units.radian. field. lra. }
  assert (Hfull : 0 < Mcore * Rmin ^ 2 + Mroll * (Rmax ^ 2 + Rmin ^ 2) / 2).
  { assert (0 < Mcore * Rmin ^ 2)
      by (apply Rmult_lt_0_compat; [lra | apply pow_lt; lra]).
    assert (0 <= Mroll * (Rmax ^ 2 + Rmin ^ 2))
      by (apply Rmult_le_pos; nra).
    lra. }
  do 3 eexists. split.
  - erewrite bind_ok
      by (apply unroll_make_system_ok with (1 := Hc); lra).
    cbn [Unroll.init].
    erewrite (unroll_slope_func_ok _ _ _ _ tension Rmax
                (Mcore * Rmin ^ 2 + Mroll * (Rmax ^ 2 + Rmin ^ 2) / 2));
      [reflexivity | | | | | lra].
    + now apply lookup_unpacked.
    + cbn [Unroll.k Unroll.y Unroll.Rmin]. rewrite Harg. nra.
    + cbn [Unroll.k Unroll.y Unroll.Rmin]. rewrite Harg.
      symmetry. apply sqrt_pow2. lra.
    + cbn [Unroll.Mcore Unroll.Rmin Unroll.rho_h]. field. split; lra.
  - cbn. unfold Units.radian, Units.s. repeat split; lra.
Qed.

Lemma unroll_slope_func_at_init_witness :
  exists dtheta alpha dy,
    fst ((system <- Unroll.make_system Unroll.condition ;;
          Unroll.slope_func (Unroll.init system) 0 system) ∅) =
      Ok (dtheta, alpha, dy) /\
    dtheta = 0 /\ dy = 0 /\
    alpha = 0.055 * Units.m * (2e-4 * Units.N) /
              (15e-3 * Units.kg * (0.02 * Units.m) ^ 2 +
               215e-3 * Units.kg *
                 ((0.055 * Units.m) ^ 2 + (0.02 * Units.m) ^ 2) / 2).
Proof.
  apply (unroll_slope_func_at_init ∅ Unroll.condition
           (0.02 * Units.m) (0.055 * Units.m) (15e-3 * Units.kg)
           (215e-3 * Units.kg) (47 * Units.m) (180 * Units.s)
           (2e-4 * Units.N) 0);
    [repeat split; reflexivity | reflexivity
    | unfold Units.m, Units.kg; lra ..].
Defined.

(** ** The sign of [k] and the total rotation *)

Lemma quotient_sign (a b : R) :
  0 < b ->
  (0 < a / b <-> 0 < a) /\ (a / b < 0 <-> a < 0) /\ (a / b = 0 <-> a = 0).
Proof.
  intros Hb.
  assert (Hinv : 0 < / b) by now apply Rinv_0_lt_compat.
  assert (Ha : a = a / b * b) by (field; lra).
  unfold Rdiv in *. repeat split; intros H; nra.
Qed.

(** X11: for positive radii and length, in either order, the total rotation
    that [estimate_k] divides by is [2 L / (Rmax + Rmin)], which is
    positive and free of [pi], and the returned [k] has the sign of
    [Rmax - Rmin]: positive when the roll grows, negative when the radii
    are swapped, zero when they are equal. *)
Theorem estimate_k_sign (g c : globals) (Rmin Rmax L : R) :
  c !! "Rmin" = Some Rmin -> c !! "Rmax" = Some Rmax -> c !! "L" = Some L ->
  0 < Rmin -> 0 < Rmax -> 0 < L ->
  exists rads k,
    Roll.estimate_k_rads c g = (Ok rads, c ∪ g) /\
    rads = 2 * L / (Rmax + Rmin) /\ 0 < rads /\
    Roll.estimate_k c g = (Ok k, c ∪ g) /\
    (0 < k <-> Rmin < Rmax) /\ (k < 0 <-> Rmax < Rmin) /\
    (k = 0 <-> Rmax = Rmin).
Proof.
  intros c_Rmin c_Rmax c_L HRmin HRmax HL.
  pose proof PI_RGT_0 as Hpi.
  assert (Hrads : 2 * PI * (L / (2 * PI * ((Rmax + Rmin) / 2)))
                  = 2 * L / (Rmax + Rmin)) by (field; lra).
  assert (Hpos : 0 < 2 * L / (Rmax + Rmin))
    by (apply Rdiv_lt_0_compat; lra).
  do 2 eexists.
  split; [apply (estimate_k_rads_ok g c Rmin Rmax L); auto; lra |].
  split; [exact Hrads |]. split; [rewrite Hrads; exact Hpos |].
  split; [apply (estimate_k_ok g c Rmin Rmax L); auto; lra |].
  rewrite Hrads.
  destruct (quotient_sign (Rmax - Rmin) (2 * L / (Rmax + Rmin)) Hpos)
    as (Hp & Hn & Hz).
  split; [| split].
  - rewrite Hp. split; lra.
  - rewrite Hn. split; lra.
  - rewrite Hz. split; lra.
Qed.

Lemma estimate_k_sign_witness :
  exists rads k,
    Roll.estimate_k_rads Roll.condition ∅ = (Ok rads, Roll.condition ∪ ∅) /\
    rads = 2 * (47 * Units.m) / (0.055 * Units.m + 0.02 * Units.m) /\
    0 < rads /\
    Roll.estimate_k Roll.condition ∅ = (Ok k, Roll.condition ∪ ∅) /\
    (0 < k <-> 0.02 * Units.m < 0.055 * Units.m) /\
    (k < 0 <-> 0.055 * Units.m < 0.02 * Units.m) /\
    (k = 0 <-> 0.055 * Units.m = 0.02 * Units.m).
Proof.
  apply (estimate_k_sign ∅ Roll.condition (0.02 * Units.m)
           (0.055 * Units.m) (47 * Units.m));
    try reflexivity; unfold Units.m; lra.
Defined.

(** ** The session after a call *)

(** Case analysis over every lookup and division of a function body. *)
Ltac run_all_cases :=
  unfold bind, var, truediv, unpack, ret, raise, entries, Condition_series;
  repeat (cbv beta iota; rewrite ?unpack_twice;
          match goal with
          | |- context [match ?s !! ?x with _ => _ end] => destruct (s !! x)
          | |- context [if Req_dec_T ?a ?b then _ else _] =>
              destruct (Req_dec_T a b)
          end);
  cbv beta iota; rewrite ?unpack_twice; reflexivity.

Lemma estimate_k_session (c g : globals) :
  snd (Roll.estimate_k c g) = c ∪ g.
Proof. unfold Roll.estimate_k. run_all_cases. Qed.

(** X16: whether it returns or raises, [make_system] changes the session in one
    way only: the names of the condition are bound to its values, the
    others keep theirs.  So running the cell again on the session it left
    gives the same outcome and the same session. *)
Theorem make_system_session (c g : globals) :
  (snd (Roll.make_system c g) = c ∪ g /\
   Roll.make_system c (snd (Roll.make_system c g)) = Roll.make_system c g) /\
  (snd (Unroll.make_system c g) = c ∪ g /\
   Unroll.make_system c (snd (Unroll.make_system c g))
     = Unroll.make_system c g) /\
  (snd (Yoyo.make_system c g) = c ∪ g /\
   Yoyo.make_system c (snd (Yoyo.make_system c g)) = Yoyo.make_system c g).
Proof.
  assert (Hroll : snd (Roll.make_system c g) = c ∪ g).
  { unfold Roll.make_system, Roll.estimate_k. run_all_cases. }
  assert (Hunroll : snd (Unroll.make_system c g) = c ∪ g).
  { unfold Unroll.make_system. run_all_cases. }
  assert (Hyoyo : snd (Yoyo.make_system c g) = c ∪ g).
  { unfold Yoyo.make_system. run_all_cases. }
  rewrite Hroll, Hunroll, Hyoyo. repeat split.
  - unfold Roll.make_system, bind at 1 3, unpack.
    unfold entries, Condition_series. now rewrite unpack_twice.
  - unfold Unroll.make_system, bind at 1 3, unpack.
    unfold entries, Condition_series. now rewrite unpack_twice.
  - unfold Yoyo.make_system, bind at 1 3, unpack.
    unfold entries, Condition_series. now rewrite unpack_twice.
Qed.

Lemma unroll_slope_func_needs_tension_witness :
  Unroll.slope_func Unroll.unit_state 0 Unroll.unit_system ∅ =
    (Raise (NameError "tension"), entries Unroll.unit_system ∪ ∅).
Proof.
  apply (unroll_slope_func_needs_tension ∅ Unroll.unit_state 0
           Unroll.unit_system).
  - reflexivity.
  - cbn. lra.
Defined.

(** ** Signs of the derived constants *)

(** X13: the unrolling [make_system] accepts radii in reverse order: for
    positive, distinct radii, positive length and positive paper mass it
    returns a system whose [k] and [rho_h] are both positive when
    [Rmin < Rmax] and both negative when [Rmax < Rmin]. *)
Theorem unroll_make_system_signs (g c : globals)
    (Rmin Rmax Mcore Mroll L duration : R) :
  Unroll.params c Rmin Rmax Mcore Mroll L duration ->
  0 < Rmin -> 0 < Rmax -> Rmax <> Rmin -> 0 < L -> 0 < Mroll ->
  exists system,
    Unroll.make_system c g = (Ok system, c ∪ g) /\
    (0 < Unroll.k system <-> Rmin < Rmax) /\
    (Unroll.k system < 0 <-> Rmax < Rmin) /\
    (0 < Unroll.rho_h system <-> Rmin < Rmax) /\
    (Unroll.rho_h system < 0 <-> Rmax < Rmin).
Proof.
  intros Hc HRmin HRmax Hne HL HMroll.
  pose proof PI_RGT_0 as Hpi.
  assert (Hsq : Rmax ^ 2 - Rmin ^ 2 = (Rmax - Rmin) * (Rmax + Rmin)) by ring.
  assert (Hnz : Rmax ^ 2 - Rmin ^ 2 <> 0).
  { rewrite Hsq. apply Rmult_integral_contrapositive_currified; lra. }
  assert (Hk : (Rmax ^ 2 - Rmin ^ 2) / 2 / L / Units.radian
               = (Rmax - Rmin) / (2 * L / (Rmax + Rmin))).
  { unfold Units.radian. field. lra. }
  assert (Hrho : Mroll / (PI * (Rmax ^ 2 - Rmin ^ 2))
                 = (Rmax - Rmin)
                   / (PI * (Rmax - Rmin) ^ 2 * (Rmax + Rmin) / Mroll)).
  { field. repeat split; lra. }
  assert (Hb1 : 0 < 2 * L / (Rmax + Rmin))
    by (apply Rdiv_lt_0_compat; lra).
  assert (Hb2 : 0 < PI * (Rmax - Rmin) ^ 2 * (Rmax + Rmin) / Mroll).
  { apply Rdiv_lt_0_compat; [| exact HMroll].
    apply Rmult_lt_0_compat; [| lra].
    apply Rmult_lt_0_compat; [exact Hpi |].
    destruct (Rtotal_order Rmax Rmin) as [Hlt | [Heq | Hgt]];
      [nra | contradiction | nra]. }
  destruct (quotient_sign (Rmax - Rmin) _ Hb1) as (Hp1 & Hn1 & _).
  destruct (quotient_sign (Rmax - Rmin) _ Hb2) as (Hp2 & Hn2 & _).
  eexists. split.
  - apply unroll_make_system_ok with (1 := Hc); [exact Hnz | lra].
  - cbn [Unroll.k Unroll.rho_h]. rewrite Hk, Hrho.
    rewrite Hp1, Hn1, Hp2, Hn2. repeat split; lra.
Qed.

Lemma unroll_make_system_signs_witness :
  exists system,
    Unroll.make_system
      (Condition [("Rmin", 2); ("Rmax", 1); ("Mcore", 1); ("Mroll", 1);
                  ("L", 1); ("duration", 1)]) ∅ =
      (Ok system,
       Condition [("Rmin", 2); ("Rmax", 1); ("Mcore", 1); ("Mroll", 1);
                  ("L", 1); ("duration", 1)] ∪ ∅) /\
    (0 < Unroll.k system <-> 2 < 1) /\
    (Unroll.k system < 0 <-> 1 < 2) /\
    (0 < Unroll.rho_h system <-> 2 < 1) /\
    (Unroll.rho_h system < 0 <-> 1 < 2).
Proof.
  apply (unroll_make_system_signs ∅ _ 2 1 1 1 1 1);
    [repeat split; reflexivity | lra ..].
Defined.

(** X14: the cell that tests the rolling slope function,
    [slope_func(system.init, 0*s, system)] after [make_system] on a valid
    condition: it returns [(10, 10 Rmin, 10 (Rmax^2 - Rmin^2) / (2 L))],
    so the paper rolled and the radius both start growing. *)
Theorem roll_slope_func_at_init (g c : globals)
    (Rmin Rmax L duration t : R) :
  Roll.params c Rmin Rmax L duration ->
  0 < Rmin -> Rmin < Rmax -> 0 < L ->
  exists dtheta dy dr,
    fst ((system <- Roll.make_system c ;;
          Roll.slope_func (Roll.init system) t system) g) =
      Ok (dtheta, dy, dr) /\
    dtheta = 10 /\ dy = 10 * Rmin /\
    dr = 10 * (Rmax ^ 2 - Rmin ^ 2) / (2 * L) /\
    0 < dy /\ 0 < dr.
Proof.
  intros Hc HRmin HRmax HL.
  pose proof PI_RGT_0 as Hpi.
  pose proof (squares_apart Rmin Rmax HRmin HRmax) as Hsq.
  assert (Hdr : (Rmax - Rmin)
                  / (2 * PI * (L / (2 * PI * ((Rmax + Rmin) / 2))))
                * (10 * Units.radian / Units.s)
                = 10 * (Rmax ^ 2 - Rmin ^ 2) / (2 * L)).
  { unfold Units.radian, Units.s. field. repeat split; lra. }
  do 3 eexists. split.
  - erewrite bind_ok
      by (apply roll_make_system_ok with (1 := Hc); lra).
    cbn [Roll.init]. unfold Roll.slope_func. cbv beta iota.
    do 2 step. reflexivity.
  - cbn [Roll.k]. rewrite Hdr. unfold Units.radian, Units.s.
    split; [lra |]. split; [lra |]. split; [reflexivity |].
    split; [lra |].
    apply Rdiv_lt_0_compat; lra.
Qed.

Lemma roll_slope_func_at_init_witness :
  exists dtheta dy dr,
    fst ((system <- Roll.make_system Roll.condition ;;
          Roll.slope_func (Roll.init system) 0 system) ∅) =
      Ok (dtheta, dy, dr) /\
    dtheta = 10 /\ dy = 10 * (0.02 * Units.m) /\
    dr = 10 * ((0.055 * Units.m) ^ 2 - (0.02 * Units.m) ^ 2)
           / (2 * (47 * Units.m)) /\
    0 < dy /\ 0 < dr.
Proof.
  apply (roll_slope_func_at_init ∅ Roll.condition (0.02 * Units.m)
           (0.055 * Units.m) (47 * Units.m) (130 * Units.s) 0);
    [repeat split; reflexivity | unfold Units.m; lra ..].
Defined.
